(** * readconf: configuration lookup and change watching

    A shallow embedding of package [readconf] (Go) and the properties of its
    path handling, layered lookup ([Get]), copying ([copyConf]) and watcher
    loop ([Listen]).

    Go strings are byte strings: [string] with 8-bit [ascii] characters.
    Functions of Go's standard library that the package calls ([path.Clean],
    [path.Join], [path.Dir], [path.Base], the [switch] statement) are modelled
    after the Go sources; the operating system is an interface, [OS], with a
    small simulated file system, [SimFS], as one instance of it. *)

From Stdlib Require Import ZArith Lia Bool Ascii.
From stdpp Require Import base strings gmap list.

Local Open Scope Z_scope.
#[local] Arguments String.append !s1 s2 : simpl nomatch.

(** ** Go's [switch] statement with [fallthrough]

    A clause has a guard ([None] for [default]), a body acting on the
    variables the bodies assign to, and says whether it ends in
    [fallthrough].  The first clause whose guard equals the tag is entered,
    [default] when there is none; a clause that ends in [fallthrough] runs on
    into the body of the clause written after it. *)
Module GoSwitch.
Section Switch.
Context {T S : Type} (eqb : T -> T -> bool).

Record clause := Clause {
  guard : option T;
  body : S -> S;
  falls : bool
}.

Fixpoint runFrom (cs : list clause) (s : S) : S :=
  match cs with
  | [] => s
  | c :: rest => if falls c then runFrom rest (body c s) else body c s
  end.

Fixpoint findCase (tag : T) (cs : list clause) : option (list clause) :=
  match cs with
  | [] => None
  | c :: rest =>
      match guard c with
      | Some v => if eqb tag v then Some cs else findCase tag rest
      | None => findCase tag rest
      end
  end.

Fixpoint findDefault (cs : list clause) : option (list clause) :=
  match cs with
  | [] => None
  | c :: rest =>
      match guard c with
      | None => Some cs
      | Some _ => findDefault rest
      end
  end.

Definition switch (tag : T) (cs : list clause) (s : S) : S :=
  match findCase tag cs with
  | Some entered => runFrom entered s
  | None =>
      match findDefault cs with
      | Some entered => runFrom entered s
      | None => s
      end
  end.
End Switch.
Arguments Clause {T S} guard body falls.
End GoSwitch.

(** ** Package [path] of the Go standard library *)
Module path.

Definition slash : ascii := "/"%char.
Definition dot : ascii := "."%char.

(** [r == n || path[r] == '/']: the element ends here. *)
Definition elementEnds (s : string) : bool :=
  match s with
  | EmptyString => true
  | String c _ => Ascii.eqb c slash
  end.

(** The output buffer [out] of [Clean] holds [out.w] bytes; it is kept
    here as the list of these bytes, last written byte first, so that
    [out.w] is its length, [out.append c] is [c :: out], and [out.w--]
    drops the head.  (Go's [lazybuf] stores the same bytes, sharing them
    with the input for as long as they agree with it.) *)
Definition buffer := list ascii.

(** The [..] element when [out.w > dotdot]:
    [out.w--; for out.w > dotdot && out.index(out.w) != '/' { out.w-- }].
    [removed] is [out.index(out.w)], the byte just dropped. *)
Fixpoint backtrack (dotdot : nat) (removed : ascii) (out : buffer) : buffer :=
  match out with
  | [] => []
  | c :: out' =>
      if (dotdot <? length out)%nat && negb (Ascii.eqb removed slash)
      then backtrack dotdot c out'
      else out
  end.

(** Before a real path element: add slash if needed,
    [if rooted && out.w != 1 || !rooted && out.w != 0 { out.append('/') }]. *)
Definition addSlash (rooted : bool) (out : buffer) : buffer :=
  if (rooted && negb (length out =? 1)%nat)
     || (negb rooted && negb (length out =? 0)%nat)
  then slash :: out else out.

(** The loop [for r < n] of [Clean] over the unread input [path[r:]].
    The loop that copies a real element,
    [for ; r < n && path[r] != '/'; r++ { out.append(path[r]) }], is the
    inner [copy]; its first round, on a byte already known not to be a
    slash, is taken where it is entered. *)
Fixpoint cleanLoop (rooted : bool) (rest : string) (out : buffer)
    (dotdot : nat) {struct rest} : buffer :=
  match rest with
  | EmptyString => out
  | String c rest1 =>
      if Ascii.eqb c slash then
        (* empty path element *)
        cleanLoop rooted rest1 out dotdot
      else if Ascii.eqb c dot && elementEnds rest1 then
        (* . element *)
        cleanLoop rooted rest1 out dotdot
      else
        let realElement :=
          (* add slash if needed, then copy the element *)
          let out1 := addSlash rooted out in
          (fix copy (p : string) (o : buffer) {struct p} : buffer :=
             match p with
             | EmptyString => o
             | String c' p' =>
                 if Ascii.eqb c' slash then cleanLoop rooted p o dotdot
                 else copy p' (c' :: o)
             end) rest1 (c :: out1) in
        match rest1 with
        | String c2 rest2 =>
            if Ascii.eqb c dot && Ascii.eqb c2 dot && elementEnds rest2 then
              (* .. element: remove to last / *)
              match out with
              | last :: out' =>
                  if (dotdot <? length out)%nat then
                    (* can backtrack *)
                    cleanLoop rooted rest2 (backtrack dotdot last out') dotdot
                  else if negb rooted then
                    (* cannot backtrack, but not rooted: append .. *)
                    let out2 := dot :: dot :: slash :: out in
                    cleanLoop rooted rest2 out2 (length out2)
                  else cleanLoop rooted rest2 out dotdot
              | [] =>
                  if negb rooted then
                    let out2 := [dot; dot] in
                    cleanLoop rooted rest2 out2 (length out2)
                  else cleanLoop rooted rest2 out dotdot
              end
            else realElement
        | EmptyString => realElement
        end
  end.

(** The copying loop of [cleanLoop], under a name. *)
Definition copyElement (rooted : bool) (dotdot : nat)
    : string -> buffer -> buffer :=
  fix copy (p : string) (o : buffer) {struct p} : buffer :=
    match p with
    | EmptyString => o
    | String c' p' =>
        if Ascii.eqb c' slash then cleanLoop rooted p o dotdot
        else copy p' (c' :: o)
    end.

(** [out.append] of every byte of [s], first byte first. *)
Fixpoint appendAll (s : string) (out : buffer) : buffer :=
  match s with
  | EmptyString => out
  | String c s' => appendAll s' (c :: out)
  end.

(** [out.string()] *)
Definition bufferString (out : buffer) : string :=
  String.string_of_list_ascii (rev out).

(** [path.Clean] *)
Definition Clean (p : string) : string :=
  match p with
  | EmptyString => "."
  | String c afterFirst =>
      let rooted := Ascii.eqb c slash in
      let out :=
        if rooted
        then cleanLoop true afterFirst [slash] 1
        else cleanLoop false p [] 0 in
      (* Turn empty string into "." *)
      match out with
      | [] => "."
      | _ => bufferString out
      end
  end.

(** [strings.LastIndex(s, "/")]: the index of the last slash, -1 when
    there is none. *)
Fixpoint lastIndexSlash (s : string) : Z :=
  match s with
  | EmptyString => -1
  | String c s' =>
      let i := lastIndexSlash s' in
      if 0 <=? i then 1 + i
      else if Ascii.eqb c slash then 0 else -1
  end.

Definition len (s : string) : Z := Z.of_nat (String.length s).

(** The slice expression [s[lo:hi]]. *)
Definition slice (s : string) (lo hi : Z) : string :=
  String.substring (Z.to_nat lo) (Z.to_nat (hi - lo)) s.

(** [path.Split]: [i := strings.LastIndex(path, "/");
    return path[:i+1], path[i+1:]] *)
Definition Split (p : string) : string * string :=
  let i := lastIndexSlash p in
  (slice p 0 (i + 1), slice p (i + 1) (len p)).

(** [path.Dir] *)
Definition Dir (p : string) : string := Clean (fst (Split p)).

(** [for len(path) > 0 && path[len(path)-1] == '/'
      { path = path[0 : len(path)-1] }] *)
Fixpoint stripTrailingSlashes (s : string) : string :=
  match s with
  | EmptyString => EmptyString
  | String c s' =>
      match stripTrailingSlashes s' with
      | EmptyString =>
          if Ascii.eqb c slash then EmptyString else String c EmptyString
      | kept => String c kept
      end
  end.

(** [path.Base] *)
Definition Base (p : string) : string :=
  match p with
  | EmptyString => "."
  | _ =>
      let p1 := stripTrailingSlashes p in
      let i := lastIndexSlash p1 in
      let p2 := if 0 <=? i then slice p1 (i + 1) (len p1) else p1 in
      match p2 with
      | EmptyString => "/"
      | _ => p2
      end
  end.

(** The loop of [path.Join] that fills [buf]. *)
Fixpoint joinBuf (buf : string) (elem : list string) : string :=
  match elem with
  | [] => buf
  | e :: rest =>
      let buf' :=
        if (0 <? len buf) || negb (String.eqb e "") then
          (if 0 <? len buf then buf +:+ "/" else buf) +:+ e
        else buf in
      joinBuf buf' rest
  end.

(** [path.Join] *)
Definition Join (elem : list string) : string :=
  let size := fold_left (fun n e => n + len e) elem 0 in
  if size =? 0 then "" else Clean (joinBuf "" elem).

End path.

(** ** Errors

    Go's [error] values: the ones the package makes with [errors.New], and
    the ones the operating system reports. *)
Inductive Errno := ENOENT | EACCES | ENOTDIR | EISDIR | EROFS | ENOSPC | EIO.

Inductive error :=
  | errors_New (msg : string)
  | SysError (errno : Errno).

(** ** The configuration handle

    [sync.RWMutex] guards calls that run concurrently on one handle; the
    calls modelled here run one at a time and the lock is left out. *)
Record Config := mkConfig {
  programPath : string; (* Path to the program's config dir *)
  programName : string; (* Used as the program's config dir *)
  confName : string;    (* Filename of the program's configuration *)
  isTemporary : bool
}.

(** Get the full path to the configuration file of the program *)
Definition getPath (p : Config) : string :=
  path.Join [programPath p; programName p; confName p].

Definition splitPath (fullPath : string)
    : string * string * string * option error :=
  let dir := path.Dir fullPath in
  let programPath := path.Dir dir in
  let programName := path.Base dir in
  let confName := path.Base fullPath in
  let err :=
    GoSwitch.switch String.eqb "" [
      GoSwitch.Clause (Some programPath) id true;
      GoSwitch.Clause (Some programName) id true;
      GoSwitch.Clause (Some confName)
        (fun _ => Some (errors_New "Could not decompose path.")) false
    ] None in
  (programPath, programName, confName, err).

(** ** The operating system

    What the package asks of its environment: the process environment, the
    file system calls of packages [os], [io] and [io/ioutil], the timer and
    the inotify watcher.  A call takes the world it runs in and gives back
    its result and the world it leaves; [os_Stat] and [os_Getenv] only look.
    An error result is Go's [error], a file result either the file or the
    error.  [World] is what the calls act on, [File] stands for [*os.File]
    and [Watcher] for [*inotify.Watcher]. *)
Definition bytes := list Byte.byte.

Class OS (World File Watcher : Type) := {
  os_Getenv : string -> World -> string;
  os_Stat : string -> World -> option error;
  os_MkdirAll : string -> Z -> World -> option error * World;
  os_Open : string -> World -> (File + error) * World;
  os_Create : string -> World -> (File + error) * World;
  io_Copy : File -> File -> World -> (Z * option error) * World;
  file_Close : File -> World -> World;
  ioutil_ReadFile : string -> World -> (bytes + error) * World;
  time_After : Z -> World -> World;
  inotify_NewWatcher : World -> (Watcher + error) * World;
  watcher_Watch : Watcher -> string -> World -> option error * World
}.

(** The permission bits [0700], Go's octal literal for full permissions
    for the user and none for the rest. *)
Definition perm0700 : Z := 7 * 8 * 8 + 0 * 8 + 0.

(** Event masks of inotify (Linux, [<sys/inotify.h>]). *)
Definition IN_MODIFY : Z := 0x2.
Definition IN_DELETE_SELF : Z := 0x400.
Definition IN_MOVE_SELF : Z := 0x800.

Section Readconf.
Context {World File Watcher : Type} {os : OS World File Watcher}.

(** *** Calls and their record

    A run is followed through the state it threads: the world, and the
    calls made on it so far, oldest first.  A nil pointer dereference ends
    the run ([Panicked]). *)
Inductive Call :=
  | CallGetenv (key : string)
  | CallStat (name : string)
  | CallMkdirAll (name : string) (perm : Z)
  | CallOpen (name : string)
  | CallCreate (name : string)
  | CallCopy (dst src : File)
  | CallClose (f : File)
  | CallReadFile (name : string)
  | CallAfter (d : Z)
  | CallNewWatcher
  | CallWatch (w : Watcher) (name : string).

Record State := mkState {
  world : World;
  calls : list Call
}.

Inductive Outcome (A : Type) :=
  | Returned (a : A) (s : State)
  | Panicked (s : State).
Arguments Returned {A} a s.
Arguments Panicked {A} s.

(** What a run returned, if it did, and the state it ended in. *)
Definition returned {A} (o : Outcome A) : option A :=
  match o with
  | Returned a _ => Some a
  | Panicked _ => None
  end.

Definition final {A} (o : Outcome A) : State :=
  match o with
  | Returned _ s => s
  | Panicked s => s
  end.

Definition M (A : Type) : Type := State -> Outcome A.

Definition ret {A} (a : A) : M A := fun s => Returned a s.

Definition bind {A B} (m : M A) (k : A -> M B) : M B :=
  fun s =>
    match m s with
    | Returned a s' => k a s'
    | Panicked s' => Panicked s'
    end.

Definition panic {A} : M A := fun s => Panicked s.

Notation "x <- m ;; k" := (bind m (fun x => k))
  (at level 100, m at next level, right associativity).
Notation "m ;;; k" := (bind m (fun _ => k))
  (at level 100, right associativity).

(** A call that only looks at the world, and one that changes it. *)
Definition look {A} (c : Call) (f : World -> A) : M A :=
  fun s => Returned (f (world s)) (mkState (world s) (calls s ++ [c])).

Definition call {A} (c : Call) (f : World -> A * World) : M A :=
  fun s =>
    let (a, w) := f (world s) in
    Returned a (mkState w (calls s ++ [c])).

Definition Getenv (key : string) : M string :=
  look (CallGetenv key) (os_Getenv key).
Definition Stat (name : string) : M (option error) :=
  look (CallStat name) (os_Stat name).
Definition MkdirAll (name : string) (perm : Z) : M (option error) :=
  call (CallMkdirAll name perm) (os_MkdirAll name perm).
Definition Open (name : string) : M (File + error) :=
  call (CallOpen name) (os_Open name).
Definition Create (name : string) : M (File + error) :=
  call (CallCreate name) (os_Create name).
Definition Copy (dst src : File) : M (Z * option error) :=
  call (CallCopy dst src) (io_Copy dst src).
Definition Close (f : File) : M unit :=
  call (CallClose f) (fun w => (tt, file_Close f w)).
Definition ReadFile (name : string) : M (bytes + error) :=
  call (CallReadFile name) (ioutil_ReadFile name).
Definition After (d : Z) : M unit :=
  call (CallAfter d) (fun w => (tt, time_After d w)).
Definition NewWatcher : M (Watcher + error) :=
  call CallNewWatcher inotify_NewWatcher.
Definition Watch (w : Watcher) (name : string) : M (option error) :=
  call (CallWatch w name) (watcher_Watch w name).

(** A method call through a [*Config] reads the fields of its receiver. *)
Definition deref (c : option Config) : M Config :=
  match c with
  | Some conf => ret conf
  | None => panic
  end.

(** *** The package *)

(** Return the contents of the configuration *)
Definition Read (c : Config) : M (bytes + error) :=
  ReadFile (getPath c).

Definition Exists (c : Config) : M bool :=
  err <- Stat (getPath c) ;;
  ret (match err with None => true | Some _ => false end).

(** Read in another configuration file.  The deferred [Close] calls run
    as the function returns, the last deferred first. *)
Definition read (c from : Config) : M (option error) :=
  (* Create parent directories if necessary with full permissions for
     user, none for the rest *)
  err <- MkdirAll (path.Join [programPath c; programName c]) perm0700 ;;
  match err with
  | Some e => ret (Some e)
  | None =>
      (* Copy, truncate destination if it exists *)
      opened <- Open (getPath from) ;;
      match opened with
      | inr e => ret (Some e)
      | inl fromFile =>
          created <- Create (getPath c) ;;
          match created with
          | inr e => Close fromFile ;;; ret (Some e)
          | inl toFile =>
              copied <- Copy toFile fromFile ;;
              Close toFile ;;; Close fromFile ;;;
              match snd copied with
              | Some e => ret (Some e)
              | None => ret None
              end
          end
      end
  end.

(** Copy a configuration to a path *)
Definition copyConf (c : Config) (programPath programName confName : string)
    : M (option Config * option error) :=
  let isTmp := false in
  let isTmp := if String.eqb programPath "/tmp" then true else isTmp in
  let newConf := mkConfig programPath programName confName isTmp in
  err <- read newConf c ;;
  ret (Some newConf, err).

(** Returns a copy of the config which relies in /tmp *)
Definition makeTmp (c : Config) : M (option Config * option error) :=
  copyConf c "/tmp" (programName c) (confName c).

(** Creates a Config struct if Config exists *)
Definition findConfig (configPath programName confName : string)
    : M (option Config * option error) :=
  let conf := mkConfig configPath programName confName true in
  found <- Exists conf ;;
  if found then ret (Some conf, None)
  else
    ret (None,
         Some (errors_New ("Config does not exist in" +:+ getPath conf))).

(** Returns the system specific Config *)
Definition getSysConfig (programName confName : string)
    : M (option Config * option error) :=
  findConfig "/etc" programName confName.

Definition copySysConfig (programPath programName confName : string)
    : M (option Config * option error) :=
  found <- getSysConfig programName confName ;;
  match snd found with
  | Some err => ret (None, Some err)
  | None =>
      sysConf <- deref (fst found) ;;
      copyConf sysConf programPath programName confName
  end.

(** [Get], the statements under "Managed to set user path": [Some] of
    what they return, [None] when control leaves them without returning. *)
Definition Get_user (programPath programName confName : string)
    : M (option (option Config * option error)) :=
  found <- findConfig programPath programName confName ;;
  match snd found with
  | Some _ =>
      copied <- copySysConfig programPath programName confName ;;
      match snd copied with
      | None => ret (Some (fst copied, None))
      | Some _ => ret None
      end
  | None => ret (Some (fst found, None))
  end.

(** [Get], from "Try to fetch the system config" to its end. *)
Definition Get_system (programName confName : string)
    : M (option Config * option error) :=
  found <- getSysConfig programName confName ;;
  match snd found with
  | Some err => ret (None, Some err)
  | None =>
      sysConf <- deref (fst found) ;;
      copied <- makeTmp sysConf ;;
      match snd copied with
      | Some _ => (* Try to copy to tmp *) ret (fst found, None)
      | None => ret (fst copied, None)
      end
  end.

(** [Get], its first statements: the user's configuration directory. *)
Definition Get_programPath : M string :=
  programPath <- Getenv "XDG_CONFIG_HOME" ;;
  if String.eqb programPath "" then
    home <- Getenv "HOME" ;;
    ret (path.Join [home; ".config"])
  else ret programPath.

(** Give a program name and a configuration file name, and get returned
    a path with a valid config. *)
Definition Get (programName confName : string)
    : M (option Config * option error) :=
  programPath <- Get_programPath ;;
  (* Managed to set user path, so try to fetch and or create config here *)
  if negb (String.eqb programPath ".config") then
    returned <- Get_user programPath programName confName ;;
    match returned with
    | Some result => ret result
    | None => Get_system programName confName
    end
  else Get_system programName confName.

(** *** The watcher *)

(** What the loop of [Listen] receives in its [select], and what it sends:
    a value on [data] or a value on [errs]. *)
Inductive Received :=
  | FromEvent (mask : Z)
  | FromError (err : error).

Inductive Sent :=
  | ToData (newConf : bytes)
  | ToErrs (err : error).

(** The [switch ev.Mask] of the loop; the variable its bodies assign is
    whether [continue] was reached. *)
Definition skipsEvent (mask : Z) : bool :=
  GoSwitch.switch Z.eqb mask [
    GoSwitch.Clause (Some IN_MODIFY) id true;
    GoSwitch.Clause (Some IN_MOVE_SELF) id true;
    GoSwitch.Clause (Some IN_DELETE_SELF) id false;
    GoSwitch.Clause None (fun _ => true) false
  ] false.

(** One round of the loop, for the value its [select] received. *)
Definition listenRound (c : Config) (received : Received) : M (list Sent) :=
  match received with
  | FromEvent mask =>
      if skipsEvent mask then ret []
      else
        After 50000000 ;;;
        newConf <- Read c ;;
        match newConf with
        | inr err => ret [ToErrs err]
        | inl newConf => ret [ToData newConf]
        end
  | FromError err => ret [ToErrs err]
  end.

(** The loop, for the values received in its successive rounds. *)
Fixpoint listenLoop (c : Config) (received : list Received) : M (list Sent) :=
  match received with
  | [] => ret []
  | r :: rest =>
      sent <- listenRound c r ;;
      later <- listenLoop c rest ;;
      ret (sent ++ later)
  end.

(** Listens for changes on the configuration: the watcher whose events
    the loop started by a successful [Listen] receives. *)
Definition Listen (c : Config) : M (option Watcher * option error) :=
  made <- NewWatcher ;;
  match made with
  | inr err => ret (None, Some err)
  | inl watcher =>
      let confName := getPath c in
      err <- Watch watcher confName ;;
      match err with
      | Some e => ret (None, Some e)
      | None => ret (Some watcher, None)
      end
  end.
End Readconf.

Arguments Returned {World File Watcher A} a s.
Arguments Panicked {World File Watcher A} s.
Arguments State : clear implicits.
Arguments Call : clear implicits.
Arguments M : clear implicits.

(** ** A simulated file system

    One [OS] to run the package on: regular files with their contents,
    directories with their permission bits, trees in which nothing can be
    created ([readonly]) and trees that cannot be searched ([hidden]).  Paths
    are the clean paths [path.Join] makes.  No other process runs: a timer
    leaves the world as it is. *)
Module SimFS.

Record FS := mkFS {
  env : gmap string string;
  files : gmap string bytes;
  dirs : gmap string Z;
  readonly : list string;
  hidden : list string;
  inotify : bool (* whether a watcher can be had *)
}.

Definition setFiles (fs : FS) (m : gmap string bytes) : FS :=
  mkFS (env fs) m (dirs fs) (readonly fs) (hidden fs) (inotify fs).

Definition setDirs (fs : FS) (m : gmap string Z) : FS :=
  mkFS (env fs) (files fs) m (readonly fs) (hidden fs) (inotify fs).

(** [p] is [root] or lies under it. *)
Definition within (root p : string) : bool :=
  String.eqb p root
  || String.prefix (if String.eqb root "/" then "/" else root +:+ "/") p.

Definition isHidden (fs : FS) (p : string) : bool :=
  existsb (fun root => within root p) (hidden fs).

Definition isReadonly (fs : FS) (p : string) : bool :=
  existsb (fun root => within root p) (readonly fs).

Definition isFile (fs : FS) (p : string) : bool :=
  match files fs !! p with Some _ => true | None => false end.

Definition isDir (fs : FS) (p : string) : bool :=
  match dirs fs !! p with Some _ => true | None => false end.

Definition getenv (key : string) (fs : FS) : string :=
  default "" (env fs !! key).

Definition stat (name : string) (fs : FS) : option error :=
  if isHidden fs name then Some (SysError EACCES)
  else if isFile fs name || isDir fs name then None
  else Some (SysError ENOENT).

(** [p] and the directories above it that do not exist yet. *)
Fixpoint missingDirs (fuel : nat) (fs : FS) (p : string) : list string :=
  match fuel with
  | O => []
  | S fuel' =>
      if isDir fs p || String.eqb p "/" || String.eqb p "." then []
      else p :: missingDirs fuel' fs (path.Dir p)
  end.

Definition mkdirAll (name : string) (perm : Z) (fs : FS)
    : option error * FS :=
  if isHidden fs name then (Some (SysError EACCES), fs)
  else if isDir fs name then (None, fs)
  else
    let missing := missingDirs (S (String.length name)) fs name in
    if existsb (isFile fs) missing then (Some (SysError ENOTDIR), fs)
    else if isReadonly fs name then (Some (SysError EROFS), fs)
    else
      (None,
       setDirs fs (foldr (fun d m => <[d := perm]> m) (dirs fs) missing)).

(** An open file is known by its path. *)
Definition open (name : string) (fs : FS) : (string + error) * FS :=
  if isHidden fs name then (inr (SysError EACCES), fs)
  else if isFile fs name || isDir fs name then (inl name, fs)
  else (inr (SysError ENOENT), fs).

(** [os.Create] truncates the file if it exists. *)
Definition create (name : string) (fs : FS) : (string + error) * FS :=
  if isHidden fs name then (inr (SysError EACCES), fs)
  else if isReadonly fs name then (inr (SysError EROFS), fs)
  else if isDir fs name then (inr (SysError EISDIR), fs)
  else if negb (isDir fs (path.Dir name)) then (inr (SysError ENOENT), fs)
  else (inl name, setFiles fs (<[name := []]> (files fs))).

(** [io.Copy] writes all of [src] after what [dst] holds. *)
Definition copy (dst src : string) (fs : FS) : (Z * option error) * FS :=
  match files fs !! src, files fs !! dst with
  | Some data, Some written =>
      ((Z.of_nat (length data), None),
       setFiles fs (<[dst := written ++ data]> (files fs)))
  | None, _ => ((0, Some (SysError EISDIR)), fs)
  | _, None => ((0, Some (SysError EIO)), fs)
  end.

Definition readFile (name : string) (fs : FS) : (bytes + error) * FS :=
  if isHidden fs name then (inr (SysError EACCES), fs)
  else
    match files fs !! name with
    | Some data => (inl data, fs)
    | None =>
        if isDir fs name then (inr (SysError EISDIR), fs)
        else (inr (SysError ENOENT), fs)
    end.

Definition newWatcher (fs : FS) : (unit + error) * FS :=
  if inotify fs then (inl tt, fs) else (inr (SysError EIO), fs).

Definition watch (w : unit) (name : string) (fs : FS) : option error * FS :=
  (stat name fs, fs).

#[global] Instance sim : OS FS string unit := {|
  os_Getenv := getenv;
  os_Stat := stat;
  os_MkdirAll := mkdirAll;
  os_Open := open;
  os_Create := create;
  io_Copy := copy;
  file_Close := fun _ fs => fs;
  ioutil_ReadFile := readFile;
  time_After := fun _ fs => fs;
  inotify_NewWatcher := newWatcher;
  watcher_Watch := watch
|}.

Definition start (fs : FS) : State FS string unit := mkState fs [].

(** Permission bits of the directories of the machines below: [0755],
    [01777] and [0700]. *)
Definition fontsConf : bytes := String.list_byte_of_string "<fontconfig/>".

(** A machine with the system configuration of [fonts] and an empty
    [/tmp]; no user is logged in. *)
Definition system : FS := {|
  env := ∅;
  files := {[ "/etc/fonts/fonts.conf" := fontsConf ]};
  dirs := {[ "/" := 493; "/etc" := 493; "/etc/fonts" := 493;
             "/tmp" := 1023 ]};
  readonly := ["/etc"];
  hidden := [];
  inotify := true
|}.

(** The same machine with [/tmp] mounted read-only. *)
Definition systemNoTmp : FS :=
  mkFS (env system) (files system) (dirs system) ["/etc"; "/tmp"] []
    true.

(** A machine without any configuration of [fonts]. *)
Definition bare : FS := {|
  env := ∅;
  files := ∅;
  dirs := {[ "/" := 493; "/etc" := 493; "/tmp" := 1023 ]};
  readonly := ["/etc"];
  hidden := [];
  inotify := true
|}.

Definition userEnv : gmap string string :=
  {[ "HOME" := "/home/u"; "XDG_CONFIG_HOME" := "/home/u/.config" ]}.

(** A user with a configuration of their own. *)
Definition userConf : bytes := String.list_byte_of_string "<mine/>".

Definition withUserConfig : FS := {|
  env := userEnv;
  files := {[ "/etc/fonts/fonts.conf" := fontsConf;
              "/home/u/.config/fonts/fonts.conf" := userConf ]};
  dirs := {[ "/" := 493; "/etc" := 493; "/etc/fonts" := 493;
             "/tmp" := 1023; "/home" := 493; "/home/u" := 448;
             "/home/u/.config" := 448; "/home/u/.config/fonts" := 448 ]};
  readonly := ["/etc"];
  hidden := [];
  inotify := true
|}.

(** A user without one, whose home can be written. *)
Definition newUser : FS := {|
  env := userEnv;
  files := {[ "/etc/fonts/fonts.conf" := fontsConf ]};
  dirs := {[ "/" := 493; "/etc" := 493; "/etc/fonts" := 493;
             "/tmp" := 1023; "/home" := 493; "/home/u" := 448 ]};
  readonly := ["/etc"];
  hidden := [];
  inotify := true
|}.

(** A user without one, whose home is mounted read-only. *)
Definition readonlyHome : FS :=
  mkFS (env newUser) (files newUser) (dirs newUser) ["/etc"; "/home"] []
    true.

(** A machine whose [/etc/fonts] cannot be searched. *)
Definition hiddenEtc : FS :=
  mkFS (env system) (files system) (dirs system) ["/etc"] ["/etc/fonts"]
    true.

End SimFS.

(** ** Earlier revisions

    The repository keeps two earlier revisions of the package, in which
    the handle is called [ProgramConfig].  Two places where they differ from
    the package above: *)

(** [config.go]: [Exists] returns [err != nil]. *)
Module config_go.
Definition Exists {World File Watcher : Type} {os : OS World File Watcher}
    (c : Config) : M World File Watcher bool :=
  bind (Stat (getPath c))
    (fun err => ret (match err with None => false | Some _ => true end)).
End config_go.

(** [readconfig.go]: the loop of [Listen] goes on only for a modify event,
    [if ev.Mask != inotify.IN_MODIFY { continue }]. *)
Module readconfig_go.
Definition skipsEvent (mask : Z) : bool := negb (Z.eqb mask IN_MODIFY).
End readconfig_go.

(** ** Words for stating the properties of [Get] *)
Section Words.
Context {World File Watcher : Type} {os : OS World File Watcher}.

(** The state after one more call. *)
Definition logged (s : State World File Watcher) (c : Call File Watcher)
    : State World File Watcher :=
  mkState (world s) (calls s ++ [c]).

(** The user's configuration directory as [Get] works it out from the
    environment. *)
Definition userRoot (w : World) : string :=
  if String.eqb (os_Getenv "XDG_CONFIG_HOME" w) ""
  then path.Join [os_Getenv "HOME" w; ".config"]
  else os_Getenv "XDG_CONFIG_HOME" w.

(** The state in which [Get] has worked it out. *)
Definition askedEnv (s : State World File Watcher)
    : State World File Watcher :=
  if String.eqb (os_Getenv "XDG_CONFIG_HOME" (world s)) ""
  then logged (logged s (CallGetenv "XDG_CONFIG_HOME")) (CallGetenv "HOME")
  else logged s (CallGetenv "XDG_CONFIG_HOME").

(** The handle [findConfig] makes, and the one [copyConf] makes. *)
Definition foundHandle (root programName confName : string) : Config :=
  mkConfig root programName confName true.

Definition copiedHandle (root programName confName : string) : Config :=
  mkConfig root programName confName (String.eqb root "/tmp").

(** The calls of a [read] in which every call succeeds, and the worlds
    between them. *)
Definition copiedAll (c from : Config) (s s' : State World File Watcher)
    : Prop :=
  exists (w1 w2 w3 w4 : World) (fromFile toFile : File) (n : Z),
    os_MkdirAll (path.Join [programPath c; programName c]) perm0700 (world s)
    = (None, w1)
    /\ os_Open (getPath from) w1 = (inl fromFile, w2)
    /\ os_Create (getPath c) w2 = (inl toFile, w3)
    /\ io_Copy toFile fromFile w3 = ((n, None), w4)
    /\ world s' = file_Close fromFile (file_Close toFile w4)
    /\ calls s'
       = calls s ++ [CallMkdirAll (path.Join [programPath c; programName c])
                       perm0700;
                     CallOpen (getPath from); CallCreate (getPath c);
                     CallCopy toFile fromFile;
                     CallClose toFile; CallClose fromFile].

End Words.

(** ** Words for stating the properties of the watcher *)

(** The event is a modify, a move-self or a delete-self. *)
Definition qualifies (mask : Z) : bool :=
  Z.eqb mask IN_MODIFY || Z.eqb mask IN_MOVE_SELF || Z.eqb mask IN_DELETE_SELF.

(** How many values the loop sends for what it received. *)
Definition publications (received : list Received) : nat :=
  length (List.filter (fun r => match r with
                           | FromEvent mask => qualifies mask
                           | FromError _ => true
                           end) received).

(** ** Path components, for stating the properties of [splitPath] *)

(** No byte of [s] is a slash. *)
Fixpoint noSlash (s : string) : bool :=
  match s with
  | EmptyString => true
  | String c s' => negb (Ascii.eqb c path.slash) && noSlash s'
  end.

(** A non-empty single path component. *)
Definition component (s : string) : bool :=
  negb (String.eqb s "") && noSlash s.

(** A component that names an entry: neither [.] nor [..]. *)
Definition entryName (s : string) : bool :=
  component s && negb (String.eqb s ".") && negb (String.eqb s "..").

(** ** Absolute paths, for stating more of [getPath] and [splitPath] *)

(** The absolute path of the names [e1; ...; en]: [/e1/.../en]. *)
Fixpoint absolutePath (names : list string) : string :=
  match names with
  | [] => ""
  | e :: rest => "/" +:+ e +:+ absolutePath rest
  end.

(** [out.append] of the names of a path, each after the slash it needs. *)
Fixpoint appendNames (rooted : bool) (names : list string) (out : path.buffer)
    : path.buffer :=
  match names with
  | [] => out
  | e :: rest => appendNames rooted rest (path.appendAll e (path.addSlash rooted out))
  end.

(** Every one of [names] is a name of an entry. *)
Definition entryNames (names : list string) : bool := forallb entryName names.

(** ** [Write]

    [file.Write] acts on the world like the other calls; the record of calls
    keeps the calls of the lookup and of the copy, and has no entry for
    it. *)
Class FileWriter (World File : Type) := {
  file_Write : File -> bytes -> World -> (Z * option error) * World
}.

Section Writing.
Context {World File Watcher : Type} {os : OS World File Watcher}
  {writer : FileWriter World File}.

Definition FileWrite (file : File) (b : bytes)
    : M World File Watcher (Z * option error) :=
  fun s =>
    let (result, w) := file_Write file b (world s) in
    Returned result (mkState w (calls s)).

(** Write contents to the configuration *)
Definition Write (c : Config) (newConf : bytes)
    : M World File Watcher (Z * option error) :=
  bind (Create (getPath c))
    (fun created =>
       match created with
       | inr err => ret (0, Some err)
       | inl file => FileWrite file newConf
       end).
End Writing.

(** [file.Write] on the simulated file system: the bytes go after what the
    file holds. *)
Module SimWrite.
Definition write (f : string) (b : bytes) (fs : SimFS.FS)
    : (Z * option error) * SimFS.FS :=
  match SimFS.files fs !! f with
  | Some written =>
      ((Z.of_nat (length b), None),
       SimFS.setFiles fs (<[f := written ++ b]> (SimFS.files fs)))
  | None => ((0, Some (SysError EIO)), fs)
  end.

#[global] Instance sim : FileWriter SimFS.FS string := {|
  file_Write := write
|}.
End SimWrite.

(** ** Words for stating what [Get] calls and what it keeps *)

(** The one error [Get] returns. *)
Definition noSystemConfig (program file : string) : error :=
  errors_New ("Config does not exist in"
              +:+ path.Join ["/etc"; program; file]).

Section MoreWords.
Context {World File Watcher : Type} {os : OS World File Watcher}.

(** The calls a copy from [src] to [dst] may make. *)
Definition copyCall (dst src : Config) (c : Call File Watcher) : Prop :=
  match c with
  | CallMkdirAll name perm =>
      name = path.Join [programPath dst; programName dst] /\ perm = perm0700
  | CallOpen name => name = getPath src
  | CallCreate name => name = getPath dst
  | CallCopy _ _ => True
  | CallClose _ => True
  | _ => False
  end.

(** The calls [Get] may make for a program and a file with the user's
    directory [root]: it asks the environment, stats the user's and the
    system's file, and copies the system's file to the user's directory or
    to [/tmp]. *)
Definition lookupCall (root program file : string) (c : Call File Watcher)
    : Prop :=
  match c with
  | CallGetenv _ => True
  | CallStat name =>
      name = path.Join [root; program; file]
      \/ name = path.Join ["/etc"; program; file]
  | _ =>
      copyCall (copiedHandle root program file)
        (foundHandle "/etc" program file) c
      \/ copyCall (copiedHandle "/tmp" program file)
           (foundHandle "/etc" program file) c
  end.

(** From [s] to [s'] the record of calls grew by calls that satisfy [P]. *)
Definition grewBy (P : Call File Watcher -> Prop)
    (s s' : State World File Watcher) : Prop :=
  exists l, calls s' = calls s ++ l /\ Forall P l.

(** A file that [os.Create] has created can be statted. *)
Definition createdCanBeStatted : Prop :=
  forall name w f w',
    os_Create name w = (inl f, w') -> os_Stat name w' = None.

(** The calls of a copy keep [P] of the world. *)
Definition copyKeeps (P : World -> Prop) : Prop :=
  (forall name perm w, P w -> P (snd (os_MkdirAll name perm w)))
  /\ (forall name w, P w -> P (snd (os_Open name w)))
  /\ (forall name w, P w -> P (snd (os_Create name w)))
  /\ (forall dst src w, P w -> P (snd (io_Copy dst src w)))
  /\ (forall f w, P w -> P (file_Close f w)).
End MoreWords.

(** On the simulated file system: [fs'] hides what [fs] hides and has the
    files and the directories of [fs], and maybe more. *)
Definition grows (fs fs' : SimFS.FS) : Prop :=
  SimFS.hidden fs' = SimFS.hidden fs
  /\ (forall p, is_Some (SimFS.files fs !! p)
                -> is_Some (SimFS.files fs' !! p))
  /\ (forall p, is_Some (SimFS.dirs fs !! p)
                -> is_Some (SimFS.dirs fs' !! p)).

(** ** More of the earliest revision, [config.go] *)
Module config_go_lookup.

(** [os.ModeDir] *)
Definition ModeDir : Z := 2 ^ 31.

Section Lookup.
Context {World File Watcher : Type} {os : OS World File Watcher}.

(** Creates a ProgramConfig struct if ProgramConfig exists *)
Definition findConfig (configPath programName confName : string)
    : M World File Watcher (option Config * option error) :=
  let conf := mkConfig configPath programName confName true in
  bind (config_go.Exists conf)
    (fun found =>
       if found then ret (Some conf, None)
       else
         ret (None,
              Some (errors_New "System specific ProgramConfig does not exist"))).

(** Returns the system specific ProgramConfig *)
Definition getSysConfig (programName confName : string)
    : M World File Watcher (option Config * option error) :=
  findConfig "/etc" programName confName.

(** Copy a configuration to a path.  The [switch] returns from the function
    when it enters a clause: the variable its bodies assign is the error to
    return. *)
Definition copyConf (c : Config) (to : string)
    : M World File Watcher (option Config * option error) :=
  let dir := path.Dir to in
  let programPath := path.Dir dir in
  let confDir := path.Base dir in
  let confName := path.Base to in
  match GoSwitch.switch String.eqb "" [
          GoSwitch.Clause (Some programPath) id true;
          GoSwitch.Clause (Some confDir) id true;
          GoSwitch.Clause (Some confName)
            (fun _ => Some (errors_New "Could not decompose path.")) false
        ] None with
  | Some err => ret (None, Some err)
  | None =>
      let isTmp := false in
      let isTmp := if String.eqb programPath "/tmp" then true else isTmp in
      let newConf := mkConfig programPath confDir confName isTmp in
      (* Create parent directories if necessary *)
      bind (MkdirAll dir ModeDir)
        (fun err =>
           match err with
           | Some e => ret (None, Some e)
           | None =>
               (* Copy, truncate destination if it exists *)
               bind (Open (getPath c))
                 (fun opened =>
                    match opened with
                    | inr e => ret (None, Some e)
                    | inl fromFile =>
                        bind (Create (getPath newConf))
                          (fun created =>
                             match created with
                             | inr e => ret (None, Some e)
                             | inl toFile =>
                                 bind (Copy toFile fromFile)
                                   (fun copied =>
                                      match snd copied with
                                      | Some e => ret (None, Some e)
                                      | None => ret (Some newConf, None)
                                      end)
                             end)
                    end)
           end)
  end.

(** Returns a copy of the config which relies in /tmp *)
Definition makeTmp (c : Config)
    : M World File Watcher (option Config * option error) :=
  copyConf c (path.Join ["/tmp"; programName c; confName c]).

(** [Get], what both of its first two blocks do with the directory [t]. *)
Definition Get_in (t programName confName : string)
    : M World File Watcher (option Config * option error) :=
  bind (findConfig t programName confName)
    (fun found =>
       match snd found with
       | Some err => ret (None, Some err)
       | None => ret (fst found, None)
       end).

Definition Get (programName confName : string)
    : M World File Watcher (option Config * option error) :=
  (* Try to fetch and or create config in $XDG_CONFIG_HOME *)
  bind (Getenv "XDG_CONFIG_HOME")
    (fun t =>
       if negb (String.eqb t "") then Get_in t programName confName
       else
         (* Try to fetch and or create config in $HOME/.config *)
         bind (Getenv "HOME")
           (fun t =>
              if negb (String.eqb t "") then Get_in t programName confName
              else
                (* Try to fetch the system config *)
                bind (getSysConfig programName confName)
                  (fun found =>
                     match snd found with
                     | Some err => ret (None, Some err)
                     | None =>
                         bind (deref (fst found))
                           (fun sysConf =>
                              bind (makeTmp sysConf)
                                (fun copied =>
                                   match snd copied with
                                   | Some _ => ret (fst found, None)
                                   | None => ret (fst copied, None)
                                   end))
                     end))).
End Lookup.
End config_go_lookup.

(** * Properties *)

(** ** Package [path] *)
Section PathFacts.
Import path.

(** The functions above on the tables of the tests of package [path]. *)
Example Clean_table :
  map Clean
    [""; "abc"; "abc/def"; "a/b/c"; "."; ".."; "../.."; "../../abc"; "/abc";
     "/"; "abc/"; "abc/def/"; "a/b/c/"; "./"; "../"; "../../"; "/abc/";
     "abc//def//ghi"; "//abc"; "///abc"; "//abc//"; "abc//";
     "abc/./def"; "/./abc/def"; "abc/.";
     "abc/def/ghi/../jkl"; "abc/def/../ghi/../jkl"; "abc/def/..";
     "abc/def/../.."; "/abc/def/../.."; "abc/def/../../..";
     "/abc/def/../../.."; "abc/def/../../../ghi/jkl/../../../mno";
     "abc/./../def"; "abc//./../def"; "abc/../../././../def"]
  = ["."; "abc"; "abc/def"; "a/b/c"; "."; ".."; "../.."; "../../abc"; "/abc";
     "/"; "abc"; "abc/def"; "a/b/c"; "."; ".."; "../.."; "/abc";
     "abc/def/ghi"; "/abc"; "/abc"; "/abc"; "abc";
     "abc/def"; "/abc/def"; "abc";
     "abc/def/jkl"; "abc/jkl"; "abc";
     "."; "/"; "..";
     "/"; "../../mno";
     "def"; "def"; "../../def"].
Proof. vm_compute. reflexivity. Qed.

Example Join_table :
  map Join
    [[]; [""]; ["a"]; ["a"; "b"]; ["a"; ""]; [""; "b"]; ["/"; "a"];
     ["/"; ""]; ["a/"; "b"]; ["a/"; ""]; [""; ""]]
  = [""; ""; "a"; "a/b"; "a"; "b"; "/a"; "/"; "a/b"; "a"; ""].
Proof. vm_compute. reflexivity. Qed.

Example Split_table :
  map Split ["a/b"; "a/b/"; "a/"; "a"; "/"]
  = [("a/", "b"); ("a/b/", ""); ("a/", ""); ("", "a"); ("/", "")].
Proof. vm_compute. reflexivity. Qed.

Example Base_table :
  map Base
    [""; "."; "/."; "/"; "////"; "x/"; "abc"; "abc/def"; "a/b/.x"; "a/b/c.";
     "a/b/c.x"]
  = ["."; "."; "."; "/"; "/"; "x"; "abc"; "def"; ".x"; "c."; "c.x"].
Proof. vm_compute. reflexivity. Qed.

Example Dir_table :
  map Dir
    [""; "."; "/."; "/"; "////"; "/foo"; "x/"; "abc"; "abc/def";
     "abc////def"; "a/b/.x"; "a/b/c."; "a/b/c.x"]
  = ["."; "."; "/"; "/"; "/"; "/"; "x"; "."; "abc"; "abc"; "a/b"; "a/b";
     "a/b"].
Proof. vm_compute. reflexivity. Qed.

Lemma append_assoc (a b c : string) : (a +:+ b) +:+ c = a +:+ (b +:+ c).
Proof. induction a as [|x a IH]; simpl; [reflexivity | now rewrite IH]. Qed.

Lemma append_empty_r (a : string) : a +:+ "" = a.
Proof. induction a as [|x a IH]; simpl; [reflexivity | now rewrite IH]. Qed.

Lemma string_of_list_ascii_app (l1 l2 : list ascii) :
  String.string_of_list_ascii (l1 ++ l2)
  = String.string_of_list_ascii l1 +:+ String.string_of_list_ascii l2.
Proof. induction l1 as [|x l1 IH]; simpl; [reflexivity | now rewrite IH]. Qed.

(** [out.append] writes at the end of [out.string()]. *)
Lemma bufferString_cons (c : ascii) (out : buffer) :
  bufferString (c :: out) = bufferString out +:+ String c "".
Proof.
  unfold bufferString. simpl. now rewrite string_of_list_ascii_app.
Qed.

Lemma bufferString_nonempty (c : ascii) (out : buffer) :
  bufferString (c :: out) <> "".
Proof.
  rewrite bufferString_cons.
  destruct (bufferString out); simpl; discriminate.
Qed.

(** [Clean] never returns the empty string. *)
Lemma Clean_nonempty (p : string) : Clean p <> "".
Proof.
  unfold Clean. destruct p as [|c p]; [discriminate|].
  destruct (Ascii.eqb c slash).
  - destruct (cleanLoop true p [slash] 1);
      [discriminate | apply bufferString_nonempty].
  - destruct (cleanLoop false (String c p) [] 0);
      [discriminate | apply bufferString_nonempty].
Qed.

Lemma Dir_nonempty (p : string) : Dir p <> "".
Proof. apply Clean_nonempty. Qed.

(** [Base] never returns the empty string. *)
Lemma Base_nonempty (p : string) : Base p <> "".
Proof.
  unfold Base. destruct p as [|c p]; [discriminate|].
  match goal with |- match ?x with _ => _ end <> _ => destruct x eqn:E end;
    [discriminate | discriminate].
Qed.

Lemma bufferString_appendAll (e : string) (out : buffer) :
  bufferString (appendAll e out) = bufferString out +:+ e.
Proof.
  revert out. induction e as [|c e IH]; intros out; simpl.
  - now rewrite append_empty_r.
  - rewrite IH, bufferString_cons, append_assoc. reflexivity.
Qed.

Lemma appendAll_nonempty (e : string) (out : buffer) :
  e <> "" -> appendAll e out <> [].
Proof.
  revert out. induction e as [|c e IH]; intros out He; [congruence|].
  simpl. destruct e as [|c' e]; [discriminate|].
  apply IH. discriminate.
Qed.

Lemma cleanLoop_slash rooted t out dd :
  cleanLoop rooted (String slash t) out dd = cleanLoop rooted t out dd.
Proof. reflexivity. Qed.

(** A byte that starts neither an empty, a [.] nor a [..] element starts
    a real one, which [copyElement] copies. *)
Lemma cleanLoop_real rooted c rest1 out dd :
  Ascii.eqb c slash = false ->
  Ascii.eqb c dot && elementEnds rest1 = false ->
  match rest1 with
  | String c2 rest2 => Ascii.eqb c dot && Ascii.eqb c2 dot && elementEnds rest2
  | EmptyString => false
  end = false ->
  cleanLoop rooted (String c rest1) out dd
  = copyElement rooted dd rest1 (c :: addSlash rooted out).
Proof.
  intros H1 H2 H3.
  destruct rest1 as [|c2 rest2]; simpl in *; rewrite H1, H2; try rewrite H3;
    reflexivity.
Qed.

Lemma copyElement_spec rooted dd (e t : string) (o : buffer) :
  noSlash e = true -> elementEnds t = true ->
  copyElement rooted dd (e +:+ t) o = cleanLoop rooted t (appendAll e o) dd.
Proof.
  revert o. induction e as [|c e IH]; intros o He Ht.
  - destruct t as [|c t]; [reflexivity|].
    simpl in Ht. simpl. now rewrite Ht.
  - simpl in He. apply andb_true_iff in He as [Hc He].
    apply negb_true_iff in Hc.
    simpl. rewrite Hc. apply IH; assumption.
Qed.

Lemma noSlash_elementEnds c e t :
  noSlash (String c e) = true -> elementEnds (String c e +:+ t) = false.
Proof.
  simpl. intros H. apply andb_true_iff in H as [H _].
  now apply negb_true_iff in H.
Qed.

(** What [cleanLoop] does with an element that is a name. *)
Lemma cleanLoop_entry rooted (e t : string) (out : buffer) dd :
  entryName e = true -> elementEnds t = true ->
  cleanLoop rooted (e +:+ t) out dd
  = cleanLoop rooted t (appendAll e (addSlash rooted out)) dd.
Proof.
  intros He Ht. unfold entryName, component in He.
  repeat (apply andb_true_iff in He as [He ?]).
  destruct e as [|c e]; [discriminate|].
  assert (Hc : Ascii.eqb c slash = false).
  { simpl in H1. apply andb_true_iff in H1 as [H1 _].
    now apply negb_true_iff in H1. }
  assert (Hn : noSlash e = true).
  { simpl in H1. now apply andb_true_iff in H1 as [_ H1]. }
  change (String c e +:+ t) with (String c (e +:+ t)).
  rewrite cleanLoop_real.
  - rewrite copyElement_spec by assumption. reflexivity.
  - assumption.
  - destruct (Ascii.eqb_spec c dot) as [->|]; [|reflexivity].
    destruct e as [|c2 e]; [discriminate|].
    now rewrite (noSlash_elementEnds c2 e t Hn).
  - destruct e as [|c2 e].
    + simpl. destruct t as [|c2 t]; [reflexivity|].
      simpl in Ht. apply Ascii.eqb_eq in Ht. subst c2.
      now rewrite andb_false_r.
    + change (String c2 e +:+ t) with (String c2 (e +:+ t)).
      destruct (Ascii.eqb_spec c dot) as [->|]; [|reflexivity].
      destruct (Ascii.eqb_spec c2 dot) as [->|]; [|reflexivity].
      destruct e as [|c3 e]; [discriminate|].
      simpl in Hn.
      now rewrite (noSlash_elementEnds c3 e t Hn).
Qed.

Lemma cleanLoop_entry_last rooted (e : string) (out : buffer) dd :
  entryName e = true ->
  cleanLoop rooted e out dd = appendAll e (addSlash rooted out).
Proof.
  intros He. rewrite <- (append_empty_r e) at 1.
  now rewrite cleanLoop_entry.
Qed.

Lemma addSlash_unrooted (c : ascii) (out : buffer) :
  addSlash false (c :: out) = slash :: c :: out.
Proof. reflexivity. Qed.

(** *** Slices, [Split], [Dir] and [Base] of [a/f] *)

Lemma len_cons c s : len (String c s) = 1 + len s.
Proof. unfold len. simpl String.length. lia. Qed.

Lemma len_nonneg s : 0 <= len s.
Proof. unfold len. lia. Qed.

Lemma len_append a b : len (a +:+ b) = len a + len b.
Proof.
  induction a as [|c a IH]; simpl; [unfold len; simpl; lia|].
  rewrite !len_cons, IH. lia.
Qed.

Lemma lastIndexSlash_noSlash f : noSlash f = true -> lastIndexSlash f = -1.
Proof.
  induction f as [|c f IH]; simpl; [reflexivity|].
  intros H. apply andb_true_iff in H as [Hc Hf].
  rewrite (IH Hf). simpl. apply negb_true_iff in Hc. now rewrite Hc.
Qed.

Lemma lastIndexSlash_app a f :
  noSlash f = true -> lastIndexSlash (a +:+ String slash f) = len a.
Proof.
  intros Hf. induction a as [|c a IH]; simpl.
  - now rewrite (lastIndexSlash_noSlash f Hf).
  - rewrite IH, len_cons.
    destruct (Z.leb_spec 0 (len a)) as [_|Hlt]; [reflexivity|].
    pose proof (len_nonneg a). lia.
Qed.

Lemma substring_prefix a b :
  String.substring 0 (String.length a) (a +:+ b) = a.
Proof.
  induction a as [|c a IH]; simpl.
  - now destruct b.
  - now rewrite IH.
Qed.

Lemma substring_suffix a b :
  String.substring (String.length a) (String.length b) (a +:+ b) = b.
Proof.
  induction a as [|c a IH]; simpl; [|exact IH].
  rewrite <- (append_empty_r b) at 2. apply substring_prefix.
Qed.

Lemma slice_prefix a b : slice (a +:+ b) 0 (len a) = a.
Proof.
  unfold slice, len. rewrite Z.sub_0_r, Nat2Z.id. apply substring_prefix.
Qed.

Lemma slice_suffix a b : slice (a +:+ b) (len a) (len (a +:+ b)) = b.
Proof.
  unfold slice. rewrite len_append.
  replace (len a + len b - len a) with (len b) by lia.
  unfold len. rewrite !Nat2Z.id. apply substring_suffix.
Qed.

Lemma Split_slash a f :
  noSlash f = true ->
  Split (a +:+ String slash f) = (a +:+ "/", f).
Proof.
  intros Hf. unfold Split. rewrite (lastIndexSlash_app a f Hf).
  change (String slash f) with ("/" +:+ f).
  rewrite <- append_assoc.
  replace (len a + 1) with (len (a +:+ "/"))
    by (rewrite len_append; reflexivity).
  now rewrite slice_prefix, slice_suffix.
Qed.

Lemma Split_noSlash f : noSlash f = true -> Split f = ("", f).
Proof.
  intros Hf. unfold Split. rewrite (lastIndexSlash_noSlash f Hf).
  pose proof (slice_prefix "" f) as Hp.
  pose proof (slice_suffix "" f) as Hs.
  simpl in Hp, Hs. change (len "") with 0 in Hp, Hs.
  change (-1 + 1) with 0. now rewrite Hp, Hs.
Qed.

Lemma Dir_slash a f :
  noSlash f = true -> Dir (a +:+ String slash f) = Clean (a +:+ "/").
Proof. intros Hf. unfold Dir. now rewrite Split_slash. Qed.

Lemma Dir_noSlash f : noSlash f = true -> Dir f = ".".
Proof. intros Hf. unfold Dir. now rewrite Split_noSlash. Qed.

Lemma append_cons_nonempty a c f : a +:+ String c f <> "".
Proof. destruct a; discriminate. Qed.

Lemma stripTrailingSlashes_name a f :
  component f = true -> stripTrailingSlashes (a +:+ f) = a +:+ f.
Proof.
  intros Hf. apply andb_true_iff in Hf as [Hne Hf].
  induction a as [|c a IH]; simpl.
  - clear Hne. induction f as [|c f IH]; [reflexivity|].
    simpl in Hf. apply andb_true_iff in Hf as [Hc Hf].
    apply negb_true_iff in Hc. simpl. rewrite (IH Hf), Hc.
    now destruct f.
  - rewrite IH. destruct f as [|c' f]; [discriminate|].
    destruct (a +:+ String c' f) eqn:E; [|reflexivity].
    now apply append_cons_nonempty in E.
Qed.

Lemma Base_slash a f :
  component f = true -> Base (a +:+ String slash f) = f.
Proof.
  intros Hf. pose proof Hf as Hc. apply andb_true_iff in Hc as [Hne Hns].
  unfold Base.
  destruct (a +:+ String slash f) eqn:E;
    [now apply append_cons_nonempty in E|]. rewrite <- E. clear E.
  change (String slash f) with ("/" +:+ f).
  rewrite <- append_assoc, stripTrailingSlashes_name by assumption.
  rewrite append_assoc. change ("/" +:+ f) with (String slash f).
  rewrite (lastIndexSlash_app a f Hns).
  destruct (Z.leb_spec 0 (len a)) as [_|Hlt];
    [|pose proof (len_nonneg a); lia].
  change (String slash f) with ("/" +:+ f).
  rewrite <- append_assoc.
  replace (len a + 1) with (len (a +:+ "/"))
    by (rewrite len_append; reflexivity).
  rewrite slice_suffix. destruct f; [discriminate | reflexivity].
Qed.

Lemma Base_component f : component f = true -> Base f = f.
Proof.
  intros Hf. pose proof Hf as Hc. apply andb_true_iff in Hc as [Hne Hns].
  unfold Base. destruct f as [|c f]; [discriminate|].
  pose proof (stripTrailingSlashes_name "" _ Hf) as Hs.
  change ("" +:+ String c f) with (String c f) in Hs.
  now rewrite !Hs, (lastIndexSlash_noSlash _ Hns).
Qed.

(** *** [Clean] of [r/], [r/p/] and [r/p/f] *)

Lemma entryName_component e : entryName e = true -> component e = true.
Proof.
  unfold entryName. intros H.
  now do 2 (apply andb_true_iff in H as [H _]).
Qed.

Lemma component_cases r :
  component r = true -> r = "." \/ r = ".." \/ entryName r = true.
Proof.
  intros Hr. unfold entryName. rewrite Hr.
  destruct (String.eqb_spec r "."); [now left|].
  destruct (String.eqb_spec r ".."); [now (right; left)|].
  now (right; right).
Qed.

(** The first element of a relative path: [.] leaves the buffer empty,
    anything else is written to it. *)
Lemma cleanLoop_component r t :
  component r = true -> elementEnds t = true ->
  exists dd,
    cleanLoop false (r +:+ t) [] 0
    = cleanLoop false t
        (if String.eqb r "." then [] else appendAll r []) dd.
Proof.
  intros Hr Ht. destruct (component_cases r Hr) as [->|[->|He]].
  - exists 0%nat. simpl. now rewrite Ht.
  - exists 2%nat. simpl. now rewrite Ht.
  - exists 0%nat. rewrite cleanLoop_entry by assumption.
    unfold entryName in He. apply andb_true_iff in He as [He _].
    apply andb_true_iff in He as [_ He]. apply negb_true_iff in He.
    now rewrite He.
Qed.

Lemma Clean_relative r t :
  component r = true ->
  Clean (r +:+ t)
  = match cleanLoop false (r +:+ t) [] 0 with
    | [] => "."
    | out => bufferString out
    end.
Proof.
  intros Hr. apply andb_true_iff in Hr as [Hne Hns].
  destruct r as [|c r]; [discriminate|].
  simpl in Hns. apply andb_true_iff in Hns as [Hc _].
  apply negb_true_iff in Hc.
  change (String c r +:+ t) with (String c (r +:+ t)).
  unfold Clean. rewrite Hc.
  now destruct (cleanLoop false (String c (r +:+ t)) [] 0).
Qed.

Lemma bufferString_root r : bufferString (appendAll r []) = r.
Proof. now rewrite bufferString_appendAll. Qed.

Lemma component_nonempty r : component r = true -> r <> "".
Proof. now destruct r. Qed.

Lemma addSlash_empty : addSlash false [] = [].
Proof. reflexivity. Qed.

Lemma addSlash_nonempty (out : buffer) :
  out <> [] -> addSlash false out = slash :: out.
Proof. now destruct out. Qed.

Lemma written_string (out : buffer) (s : string) :
  out <> [] -> bufferString out = s ->
  match out with [] => "." | c :: l => bufferString (c :: l) end = s.
Proof. now destruct out. Qed.

Lemma Clean_root r : component r = true -> Clean (r +:+ "/") = r.
Proof.
  intros Hr. rewrite Clean_relative by assumption.
  destruct (cleanLoop_component r "/" Hr eq_refl) as [dd ->].
  rewrite cleanLoop_slash. simpl cleanLoop.
  destruct (String.eqb_spec r ".") as [->|_]; [reflexivity|].
  apply written_string; [|apply bufferString_root].
  apply appendAll_nonempty, component_nonempty, Hr.
Qed.

Lemma Clean_root_program r p :
  component r = true -> entryName p = true ->
  Clean (r +:+ "/" +:+ p +:+ "/")
  = if String.eqb r "." then p else r +:+ "/" +:+ p.
Proof.
  intros Hr Hp. rewrite Clean_relative by assumption.
  destruct (cleanLoop_component r ("/" +:+ p +:+ "/") Hr eq_refl) as [dd ->].
  change ("/" +:+ p +:+ "/") with (String slash (p +:+ "/")).
  rewrite cleanLoop_slash, cleanLoop_entry by (assumption || reflexivity).
  rewrite cleanLoop_slash. simpl cleanLoop.
  pose proof (component_nonempty p (entryName_component p Hp)) as Hp0.
  apply written_string; [now apply appendAll_nonempty|].
  rewrite bufferString_appendAll.
  destruct (String.eqb_spec r ".") as [->|_]; [reflexivity|].
  rewrite addSlash_nonempty
    by apply appendAll_nonempty, component_nonempty, Hr.
  rewrite bufferString_cons, bufferString_root. now rewrite append_assoc.
Qed.

Lemma Clean_root_program_file r p f :
  component r = true -> entryName p = true -> entryName f = true ->
  Clean (r +:+ "/" +:+ p +:+ "/" +:+ f)
  = if String.eqb r "." then p +:+ "/" +:+ f
    else r +:+ "/" +:+ p +:+ "/" +:+ f.
Proof.
  intros Hr Hp Hf. rewrite Clean_relative by assumption.
  destruct (cleanLoop_component r ("/" +:+ p +:+ "/" +:+ f) Hr eq_refl)
    as [dd ->].
  change ("/" +:+ p +:+ "/" +:+ f) with (String slash (p +:+ "/" +:+ f)).
  rewrite cleanLoop_slash, cleanLoop_entry by (assumption || reflexivity).
  change ("/" +:+ f) with (String slash f).
  rewrite cleanLoop_slash, cleanLoop_entry_last by assumption.
  pose proof (component_nonempty p (entryName_component p Hp)) as Hp0.
  pose proof (component_nonempty f (entryName_component f Hf)) as Hf0.
  apply written_string; [now apply appendAll_nonempty|].
  rewrite bufferString_appendAll.
  rewrite addSlash_nonempty by now apply appendAll_nonempty.
  rewrite bufferString_cons, bufferString_appendAll.
  destruct (String.eqb_spec r ".") as [->|_];
    [now rewrite !append_assoc|].
  rewrite addSlash_nonempty
    by apply appendAll_nonempty, component_nonempty, Hr.
  rewrite bufferString_cons, bufferString_root. now rewrite !append_assoc.
Qed.

Lemma Join3 r p f :
  r <> "" ->
  Join [r; p; f] = Clean (r +:+ "/" +:+ p +:+ "/" +:+ f).
Proof.
  intros Hr. destruct r as [|c r]; [congruence|].
  unfold Join. simpl fold_left. rewrite len_cons.
  pose proof (len_nonneg r). pose proof (len_nonneg p).
  pose proof (len_nonneg f).
  destruct (Z.eqb_spec (0 + (1 + len r) + len p + len f) 0); [lia|].
  simpl joinBuf. simpl. now rewrite !append_assoc.
Qed.
End PathFacts.

(** ** [splitPath] *)
Section SplitPathFacts.
Import path.

Lemma eqb_empty_false (s : string) : s <> "" -> String.eqb "" s = false.
Proof. now destruct s. Qed.

(** The [switch] of [splitPath] compares [""] with three strings none of
    which is ever empty: no clause is entered. *)
Lemma splitPath_unfold (fullPath : string) :
  splitPath fullPath
  = (Dir (Dir fullPath), Base (Dir fullPath), Base fullPath, None).
Proof.
  unfold splitPath, GoSwitch.switch.
  cbn [GoSwitch.findCase GoSwitch.findDefault GoSwitch.guard].
  rewrite (eqb_empty_false _ (Dir_nonempty (Dir fullPath))).
  rewrite (eqb_empty_false _ (Base_nonempty (Dir fullPath))).
  rewrite (eqb_empty_false _ (Base_nonempty fullPath)).
  reflexivity.
Qed.

Lemma noSlash_of_entry e : entryName e = true -> noSlash e = true.
Proof.
  intros He. apply entryName_component in He.
  now apply andb_true_iff in He as [_ He].
Qed.
End SplitPathFacts.

(** C3, as stated, fails: a program directory named [.] is a non-empty
    single path component, [path.Join] cleans it away, and [splitPath]
    returns other components than the ones joined. *)
Lemma splitPath_getPath_dot_component :
  ~ (forall root program file : string,
       component root = true -> component program = true ->
       component file = true ->
       splitPath (getPath (mkConfig root program file false))
       = (root, program, file, None)).
Proof.
  intros H.
  specialize (H "a" "." "c" eq_refl eq_refl eq_refl).
  vm_compute in H. discriminate H.
Qed.

(** C3, amended: for a root that is a non-empty single path component and a
    program and a file that are non-empty single path components other than
    [.] and [..], [splitPath] of the joined path returns the three components
    and no error. *)
Theorem splitPath_getPath (root program file : string) (tmp : bool) :
  component root = true -> entryName program = true ->
  entryName file = true ->
  splitPath (getPath (mkConfig root program file tmp))
  = (root, program, file, None).
Proof.
  intros Hr Hp Hf. unfold getPath. simpl.
  pose proof (entryName_component _ Hp) as Hpc.
  pose proof (entryName_component _ Hf) as Hfc.
  pose proof (noSlash_of_entry _ Hp) as Hpn.
  pose proof (noSlash_of_entry _ Hf) as Hfn.
  rewrite Join3 by now apply component_nonempty.
  rewrite Clean_root_program_file by assumption.
  rewrite splitPath_unfold.
  destruct (String.eqb_spec root ".") as [->|Hne].
  - change ("/" +:+ file) with (String path.slash file).
    rewrite (Dir_slash program file Hfn), (Clean_root program Hpc).
    rewrite (Dir_noSlash program Hpn), (Base_component program Hpc).
    now rewrite (Base_slash program file Hfc).
  - rewrite <- (append_assoc root "/" (program +:+ "/" +:+ file)).
    rewrite <- (append_assoc (root +:+ "/") program ("/" +:+ file)).
    change ("/" +:+ file) with (String path.slash file).
    rewrite (Dir_slash _ file Hfn), (Base_slash _ file Hfc).
    rewrite !append_assoc, (Clean_root_program root program Hr Hp).
    apply String.eqb_neq in Hne. rewrite Hne.
    change ("/" +:+ program) with (String path.slash program).
    rewrite (Dir_slash root program Hpn), (Clean_root root Hr).
    now rewrite (Base_slash root program Hpc).
Qed.

(** The configuration of [fonts] under the parent directory. *)
Lemma splitPath_getPath_witness :
  component ".." = true /\ entryName "fonts" = true
  /\ entryName "fonts.conf" = true
  /\ splitPath (getPath (mkConfig ".." "fonts" "fonts.conf" false))
     = ("..", "fonts", "fonts.conf", None).
Proof.
  do 3 (split; [reflexivity|]).
  apply (splitPath_getPath ".." "fonts" "fonts.conf" false); reflexivity.
Defined.

(** C4: [splitPath] reports no error on any path, also on one of fewer than
    three segments; its [switch] compares the empty string with results of
    [path.Dir] and [path.Base], which are never empty. *)
Theorem splitPath_never_fails :
  (forall fullPath : string, snd (splitPath fullPath) = None)
  /\ splitPath "fonts.conf" = (".", ".", "fonts.conf", None)
  /\ splitPath "" = (".", ".", ".", None).
Proof.
  split; [|split; vm_compute; reflexivity].
  intros fullPath. now rewrite splitPath_unfold.
Qed.


(** Closed facts about runs on the simulated file system hold by
    evaluation. *)
Ltac evaluated :=
  lazy zeta;
  repeat match goal with |- _ /\ _ => split end; vm_compute; reflexivity.

(** ** Runs of the package on any operating system *)
Section Runs.
Context {World File Watcher : Type} {os : OS World File Watcher}.
Implicit Types s : State World File Watcher.

Lemma bind_returned {A B} (m : M World File Watcher A)
    (k : A -> M World File Watcher B) s a s' :
  m s = Returned a s' -> bind m k s = k a s'.
Proof. unfold bind. now intros ->. Qed.

Lemma call_run {A} (c : Call File Watcher) (f : World -> A * World) s a w :
  f (world s) = (a, w) ->
  call c f s = Returned a (mkState w (calls s ++ [c])).
Proof. unfold call. now intros ->. Qed.

Lemma world_logged s c : world (logged s c) = world s.
Proof. reflexivity. Qed.

Lemma world_askedEnv s : world (askedEnv s) = world s.
Proof. unfold askedEnv. now destruct (String.eqb _ _). Qed.

Lemma Stat_run name s :
  Stat name s = Returned (os_Stat name (world s)) (logged s (CallStat name)).
Proof. reflexivity. Qed.

Lemma Exists_run c s :
  Exists c s
  = Returned (match os_Stat (getPath c) (world s) with
              | None => true
              | Some _ => false
              end) (logged s (CallStat (getPath c))).
Proof. reflexivity. Qed.

Lemma findConfig_found root programName confName s :
  os_Stat (path.Join [root; programName; confName]) (world s) = None ->
  findConfig root programName confName s
  = Returned (Some (foundHandle root programName confName), None)
      (logged s (CallStat (path.Join [root; programName; confName]))).
Proof.
  intros H. unfold findConfig. erewrite bind_returned by apply Exists_run.
  unfold getPath. simpl. now rewrite H.
Qed.

Lemma findConfig_missing root programName confName s :
  os_Stat (path.Join [root; programName; confName]) (world s) <> None ->
  findConfig root programName confName s
  = Returned
      (None,
       Some (errors_New ("Config does not exist in"
                         +:+ path.Join [root; programName; confName])))
      (logged s (CallStat (path.Join [root; programName; confName]))).
Proof.
  intros H. unfold findConfig. erewrite bind_returned by apply Exists_run.
  unfold getPath. simpl.
  now destruct (os_Stat (path.Join [root; programName; confName]) (world s)).
Qed.

Lemma Get_programPath_run s :
  Get_programPath s = Returned (userRoot (world s)) (askedEnv s).
Proof.
  unfold Get_programPath, userRoot, askedEnv, bind, Getenv, look.
  now destruct (String.eqb (os_Getenv "XDG_CONFIG_HOME" (world s)) "").
Qed.

(** Without a user root, [Get] is [Get_system]. *)
Lemma Get_unresolved programName confName s :
  userRoot (world s) = ".config" ->
  Get programName confName s = Get_system programName confName (askedEnv s).
Proof.
  intros H. unfold Get.
  erewrite bind_returned by apply Get_programPath_run. now rewrite H.
Qed.

Lemma userRoot_empty_env w :
  os_Getenv "XDG_CONFIG_HOME" w = "" -> os_Getenv "HOME" w = "" ->
  userRoot w = ".config".
Proof. unfold userRoot. now intros -> ->. Qed.

(** C8: [Exists] returns a boolean and nothing else, after one [os.Stat] of
    the handle's full path: [true] exactly when that call reports no error,
    [false] for every error it reports, whatever the error is. *)
Theorem Exists_never_fails (c : Config) s :
  exists b : bool,
    Exists c s = Returned b (logged s (CallStat (getPath c)))
    /\ (b = true <-> os_Stat (getPath c) (world s) = None)
    /\ (forall e, os_Stat (getPath c) (world s) = Some e -> b = false).
Proof.
  rewrite Exists_run.
  destruct (os_Stat (getPath c) (world s)) as [e|]; eexists;
    (split; [reflexivity|]); split; try split; congruence.
Qed.

(** C5: with both environment variables empty and no file to stat at
    [/etc/<programName>/<confName>], [Get] returns an error and no handle. *)
Theorem Get_no_configuration (programName confName : string) s :
  os_Getenv "XDG_CONFIG_HOME" (world s) = "" ->
  os_Getenv "HOME" (world s) = "" ->
  os_Stat (path.Join ["/etc"; programName; confName]) (world s) <> None ->
  exists err s',
    Get programName confName s = Returned (None, Some err) s'.
Proof.
  intros Hxdg Hhome Hsys.
  rewrite Get_unresolved by now apply userRoot_empty_env.
  unfold Get_system, getSysConfig.
  erewrite bind_returned
    by (apply findConfig_missing; now rewrite world_askedEnv).
  simpl. eauto.
Qed.
End Runs.

(** [Exists] on a file that is there, on one that is not, and on one in a
    directory that may not be searched. *)
Lemma Exists_never_fails_witness :
  returned (Exists (foundHandle "/etc" "fonts" "fonts.conf")
              (SimFS.start SimFS.system)) = Some true
  /\ returned (Exists (foundHandle "/etc" "fonts" "fonts.conf")
                 (SimFS.start SimFS.bare)) = Some false
  /\ SimFS.stat "/etc/fonts/fonts.conf" SimFS.hiddenEtc
     = Some (SysError EACCES)
  /\ returned (Exists (foundHandle "/etc" "fonts" "fonts.conf")
                 (SimFS.start SimFS.hiddenEtc)) = Some false.
Proof.
  do 3 (split; [vm_compute; reflexivity|]).
  destruct (Exists_never_fails (os := SimFS.sim)
              (foundHandle "/etc" "fonts" "fonts.conf")
              (SimFS.start SimFS.hiddenEtc)) as (b & Hrun & _ & Hfalse).
  rewrite Hrun. simpl. f_equal.
  apply (Hfalse (SysError EACCES)). vm_compute. reflexivity.
Defined.

(** A machine without a user and without any configuration of [fonts]. *)
Lemma Get_no_configuration_witness :
  exists err s',
    Get "fonts" "fonts.conf" (SimFS.start SimFS.bare)
    = Returned (None, Some err) s'.
Proof.
  apply (Get_no_configuration (os := SimFS.sim) "fonts" "fonts.conf"
           (SimFS.start SimFS.bare)).
  - vm_compute. reflexivity.
  - vm_compute. reflexivity.
  - vm_compute. discriminate.
Defined.

(** ** [read], [copyConf] and [makeTmp] *)
Section Copying.
Context {World File Watcher : Type} {os : OS World File Watcher}.
Implicit Types s : State World File Watcher.

(** [read] returns; its first call makes the directories with [0700];
    it reports no error only when every call succeeded. *)
Lemma read_returns (c from : Config) (s : State World File Watcher) :
  exists err s',
    read c from s = Returned err s'
    /\ (exists rest,
          calls s'
          = calls s
            ++ CallMkdirAll (path.Join [programPath c; programName c])
                 perm0700 :: rest)
    /\ (err = None -> copiedAll c from s s').
Proof.
  unfold read, MkdirAll, Open, Create, Copy, Close.
  destruct (os_MkdirAll (path.Join [programPath c; programName c])
              perm0700 (world s)) as [[e|] w1] eqn:Hmk;
    rewrite (bind_returned _ _ _ _ _ (call_run _ _ _ _ _ Hmk)).
  { do 2 eexists. split; [reflexivity|]. cbn [calls]. split; [eauto|].
    discriminate. }
  destruct (os_Open (getPath from) w1) as [[fromFile|e] w2] eqn:Hop;
    rewrite (bind_returned _ _ _ _ _ (call_run _ _ (mkState w1 _) _ _ Hop)).
  2:{ do 2 eexists. split; [reflexivity|]. cbn [calls].
      rewrite <- app_assoc. split; [simpl; eauto | discriminate]. }
  destruct (os_Create (getPath c) w2) as [[toFile|e] w3] eqn:Hcr;
    rewrite (bind_returned _ _ _ _ _ (call_run _ _ (mkState w2 _) _ _ Hcr)).
  2:{ do 2 eexists. split; [reflexivity|]. cbn [calls].
      rewrite <- !app_assoc. split; [simpl; eauto | discriminate]. }
  destruct (io_Copy toFile fromFile w3) as [[n err] w4] eqn:Hcp;
    rewrite (bind_returned _ _ _ _ _ (call_run _ _ (mkState w3 _) _ _ Hcp)).
  exists err. eexists. split; [now destruct err|]. cbn [calls world].
  rewrite <- !app_assoc. split; [simpl; eauto|].
  intros ->. exists w1, w2, w3, w4, fromFile, toFile, n.
  repeat split; assumption || reflexivity.
Qed.

Lemma copyConf_run (c : Config) (root programName confName : string) s :
  exists err s',
    copyConf c root programName confName s
    = Returned (Some (copiedHandle root programName confName), err) s'
    /\ read (copiedHandle root programName confName) c s = Returned err s'.
Proof.
  destruct (read_returns (copiedHandle root programName confName) c s)
    as (err & s' & Hrun & _).
  exists err, s'. split; [|assumption].
  unfold copyConf, bind, ret.
  replace (if String.eqb root "/tmp" then true else false)
    with (String.eqb root "/tmp") by now destruct (String.eqb root "/tmp").
  fold (copiedHandle root programName confName). now rewrite Hrun.
Qed.

(** C9: [copyConf] first makes the directories [<newRoot>/<newProgram>] with
    permissions [0700]; when it reports no error the source was opened, the
    destination created (truncated) and [io.Copy] ran from the one to the
    other without error; the handle it returns has [isTemporary] true exactly
    when [newRoot] is ["/tmp"]. *)
Theorem copyConf_copies (c : Config)
    (newRoot newProgram newFile : string) s :
  exists (newConf : Config) (err : option error) s',
    copyConf c newRoot newProgram newFile s = Returned (Some newConf, err) s'
    /\ programPath newConf = newRoot
    /\ programName newConf = newProgram
    /\ confName newConf = newFile
    /\ (isTemporary newConf = true <-> newRoot = "/tmp")
    /\ (exists rest,
          calls s'
          = calls s
            ++ CallMkdirAll (path.Join [newRoot; newProgram]) perm0700 :: rest)
    /\ (err = None -> copiedAll newConf c s s').
Proof.
  destruct (copyConf_run c newRoot newProgram newFile s)
    as (err & s' & Hrun & Hread).
  destruct (read_returns (copiedHandle newRoot newProgram newFile) c s)
    as (err' & s'' & Hread' & Hfirst & Hall).
  rewrite Hread in Hread'. injection Hread' as <- <-.
  exists (copiedHandle newRoot newProgram newFile), err, s'.
  repeat split; try assumption; try reflexivity.
  - simpl. apply String.eqb_eq.
  - simpl. apply String.eqb_eq.
Qed.
End Copying.

(** ** [Get] *)
Section Getting.
Context {World File Watcher : Type} {os : OS World File Watcher}.
Implicit Types s : State World File Watcher.

Lemma copyConf_returns c root program file s :
  exists err s',
    copyConf c root program file s
    = Returned (Some (copiedHandle root program file), err) s'.
Proof.
  destruct (copyConf_run c root program file s)
    as (err & s' & H & _). eauto.
Qed.

(** With the system configuration in place, [Get_system] returns the
    copy under [/tmp] when [makeTmp] reports no error and the system
    handle when it reports one. *)
Lemma Get_system_run program file s :
  os_Stat (path.Join ["/etc"; program; file]) (world s) = None ->
  exists err s',
    makeTmp (foundHandle "/etc" program file)
      (logged s (CallStat (path.Join ["/etc"; program; file])))
    = Returned (Some (copiedHandle "/tmp" program file), err) s'
    /\ Get_system program file s
       = Returned
           (Some (match err with
                  | None => copiedHandle "/tmp" program file
                  | Some _ => foundHandle "/etc" program file
                  end), None) s'.
Proof.
  intros Hsys. unfold Get_system, getSysConfig.
  erewrite bind_returned by (apply findConfig_found; exact Hsys).
  cbn [fst snd deref]. unfold makeTmp. cbn [foundHandle programName confName].
  destruct (copyConf_returns (foundHandle "/etc" program file)
              "/tmp" program file
              (logged s (CallStat (path.Join ["/etc"; program; file]))))
    as (err & s' & Hcopy).
  exists err, s'. split; [exact Hcopy|].
  unfold bind at 1. unfold ret at 1.
  erewrite bind_returned by exact Hcopy.
  now destruct err.
Qed.

(** Whichever of the two it returns, the handle says it is temporary. *)
Lemma Get_system_isTemporary program file s :
  os_Stat (path.Join ["/etc"; program; file]) (world s) = None ->
  exists h s',
    Get_system program file s = Returned (Some h, None) s'
    /\ isTemporary h = true.
Proof.
  intros Hsys.
  destruct (Get_system_run program file s Hsys)
    as (err & s' & _ & Hrun).
  do 2 eexists. split; [exact Hrun|]. now destruct err.
Qed.

(** With a user root and the user's file in place, [Get] returns the
    handle [findConfig] made. *)
Lemma Get_user_config program file s :
  userRoot (world s) <> ".config" ->
  os_Stat (path.Join [userRoot (world s); program; file]) (world s)
  = None ->
  Get program file s
  = Returned
      (Some (foundHandle (userRoot (world s)) program file), None)
      (logged (askedEnv s)
         (CallStat (path.Join [userRoot (world s); program; file]))).
Proof.
  intros Hroot Hstat. unfold Get.
  erewrite bind_returned by apply Get_programPath_run.
  apply String.eqb_neq in Hroot. rewrite Hroot. cbn [negb].
  unfold Get_user.
  erewrite bind_returned
    by (erewrite bind_returned
          by (apply findConfig_found; now rewrite world_askedEnv);
        reflexivity).
  reflexivity.
Qed.

Lemma copySysConfig_missing root program file s :
  os_Stat (path.Join ["/etc"; program; file]) (world s) <> None ->
  exists e,
    copySysConfig root program file s
    = Returned (None, Some e)
        (logged s (CallStat (path.Join ["/etc"; program; file]))).
Proof.
  intros Hsys. unfold copySysConfig, getSysConfig.
  erewrite bind_returned by (apply findConfig_missing; exact Hsys).
  cbn [snd]. eauto.
Qed.

Lemma copySysConfig_found root program file s :
  os_Stat (path.Join ["/etc"; program; file]) (world s) = None ->
  copySysConfig root program file s
  = copyConf (foundHandle "/etc" program file) root program
      file
      (logged s (CallStat (path.Join ["/etc"; program; file]))).
Proof.
  intros Hsys. unfold copySysConfig, getSysConfig.
  erewrite bind_returned by (apply findConfig_found; exact Hsys).
  reflexivity.
Qed.

(** [copySysConfig] returns; without an error what it returns is the
    handle [copyConf] made. *)
Lemma copySysConfig_returns root program file s :
  exists h err s',
    copySysConfig root program file s = Returned (h, err) s'
    /\ (err = None -> h = Some (copiedHandle root program file)).
Proof.
  destruct (os_Stat (path.Join ["/etc"; program; file]) (world s))
    as [e|] eqn:Hsys.
  - destruct (copySysConfig_missing root program file s) as [e' H];
      [congruence|].
    do 3 eexists. split; [exact H | discriminate].
  - rewrite (copySysConfig_found _ _ _ _ Hsys).
    destruct (copyConf_returns (foundHandle "/etc" program file)
                root program file
                (logged s (CallStat (path.Join ["/etc"; program; file]))))
      as (err & s' & H).
    do 3 eexists. split; [exact H | reflexivity].
Qed.

(** With a user root and without the user's file, [Get] is what
    [copySysConfig] returns when that is no error and [Get_system]
    otherwise. *)
Lemma Get_user_missing program file s h err s2 :
  userRoot (world s) <> ".config" ->
  os_Stat (path.Join [userRoot (world s); program; file]) (world s)
  <> None ->
  copySysConfig (userRoot (world s)) program file
    (logged (askedEnv s)
       (CallStat (path.Join [userRoot (world s); program; file])))
  = Returned (h, err) s2 ->
  Get program file s
  = match err with
    | None => Returned (h, None) s2
    | Some _ => Get_system program file s2
    end.
Proof.
  intros Hroot Hstat Hcopy. unfold Get.
  erewrite bind_returned by apply Get_programPath_run.
  apply String.eqb_neq in Hroot. rewrite Hroot. cbn [negb].
  unfold Get_user.
  destruct err as [e|];
    erewrite bind_returned
      by (erewrite bind_returned
            by (apply findConfig_missing; now rewrite world_askedEnv);
          cbn [snd]; erewrite bind_returned by exact Hcopy;
          reflexivity);
    reflexivity.
Qed.

(** [Get_system] and [Get] return: no run of them dereferences a nil
    handle. *)
Lemma Get_system_returns program file s :
  exists r s', Get_system program file s = Returned r s'.
Proof.
  destruct (os_Stat (path.Join ["/etc"; program; file]) (world s))
    as [e|] eqn:Hsys.
  - unfold Get_system, getSysConfig.
    erewrite bind_returned by (apply findConfig_missing; congruence).
    cbn [snd]. now eexists _, _.
  - destruct (Get_system_run program file s Hsys) as (err & s' & _ & H).
    eauto.
Qed.

Lemma Get_returns program file s :
  exists r s', Get program file s = Returned r s'.
Proof.
  destruct (String.eqb_spec (userRoot (world s)) ".config") as [Hroot|Hroot].
  - rewrite (Get_unresolved _ _ _ Hroot). apply Get_system_returns.
  - destruct (os_Stat (path.Join [userRoot (world s); program; file])
                (world s)) as [e|] eqn:Hstat.
    + destruct (copySysConfig_returns (userRoot (world s)) program file
                  (logged (askedEnv s)
                     (CallStat (path.Join [userRoot (world s); program; file]))))
        as (h & err & s2 & Hcopy & _).
      rewrite (Get_user_missing program file s h err s2 Hroot) by congruence.
      destruct err; [apply Get_system_returns | eauto].
    + rewrite (Get_user_config _ _ _ Hroot Hstat). eauto.
Qed.

(** C6, amended: with a user root and without a file at
    [<userRoot>/<program>/<file>], [Get] runs [copySysConfig], which copies
    the system configuration into the user root when it finds it.  When that
    reports no error [Get] returns the new user handle; when it reports
    one, because the system configuration is not found or because the copy
    fails, [Get] goes on to the system and temporary resolution. *)
Theorem Get_copies_or_falls_through (program file : string) s :
  userRoot (world s) <> ".config" ->
  os_Stat (path.Join [userRoot (world s); program; file]) (world s) <> None ->
  let root := userRoot (world s) in
  let s1 := logged (askedEnv s) (CallStat (path.Join [root; program; file])) in
  exists h err s2,
    copySysConfig root program file s1 = Returned (h, err) s2
    /\ (os_Stat (path.Join ["/etc"; program; file]) (world s) = None ->
        copySysConfig root program file s1
        = copyConf (foundHandle "/etc" program file) root program file
            (logged s1 (CallStat (path.Join ["/etc"; program; file]))))
    /\ (err = None ->
        h = Some (copiedHandle root program file)
        /\ Get program file s = Returned (h, None) s2)
    /\ (err <> None -> Get program file s = Get_system program file s2)
    /\ (os_Stat (path.Join ["/etc"; program; file]) (world s) <> None ->
        err <> None).
Proof.
  intros Hroot Hstat root s1.
  destruct (copySysConfig_returns root program file s1)
    as (h & err & s2 & Hcopy & Hh).
  exists h, err, s2. split; [exact Hcopy|].
  assert (Hw : world s1 = world s)
    by (unfold s1; now rewrite world_logged, world_askedEnv).
  pose proof (Get_user_missing program file s h err s2 Hroot Hstat Hcopy)
    as HGet.
  split; [|split; [|split]].
  - intros Hsys. apply copySysConfig_found. now rewrite Hw.
  - intros ->. split; [now apply Hh | exact HGet].
  - intros Herr. destruct err; [exact HGet | congruence].
  - intros Hsys.
    destruct (copySysConfig_missing root program file s1) as [e He];
      [now rewrite Hw|].
    rewrite He in Hcopy. injection Hcopy as <- <- <-. discriminate.
Qed.
End Getting.

(** C1: without a user root and with the system configuration in place,
    [Get] returns a handle and no error, and that handle has [isTemporary]
    true whether or not the copy under [/tmp] could be made: [findConfig]
    sets the field to true in the system handle.  On a machine whose [/tmp]
    is read-only the copy fails and the handle returned is the system
    handle, marked temporary. *)
Theorem Get_system_handle_marked_temporary :
  (forall (World File Watcher : Type) (os : OS World File Watcher)
          (program file : string) (s : State World File Watcher),
     userRoot (world s) = ".config" ->
     os_Stat (path.Join ["/etc"; program; file]) (world s) = None ->
     exists h s',
       Get program file s = Returned (Some h, None) s'
       /\ isTemporary h = true)
  /\ SimFS.getenv "XDG_CONFIG_HOME" SimFS.systemNoTmp = ""
  /\ SimFS.getenv "HOME" SimFS.systemNoTmp = ""
  /\ SimFS.stat "/etc/fonts/fonts.conf" SimFS.systemNoTmp = None
  /\ returned (makeTmp (foundHandle "/etc" "fonts" "fonts.conf")
                 (SimFS.start SimFS.systemNoTmp))
     = Some (Some (mkConfig "/tmp" "fonts" "fonts.conf" true),
             Some (SysError EROFS))
  /\ returned (Get "fonts" "fonts.conf" (SimFS.start SimFS.systemNoTmp))
     = Some (Some (mkConfig "/etc" "fonts" "fonts.conf" true), None).
Proof.
  split; [|evaluated].
  intros World File Watcher os program file s Hroot Hsys.
  rewrite (Get_unresolved _ _ _ Hroot).
  apply Get_system_isTemporary. now rewrite world_askedEnv.
Qed.

(** C2: with a user root and the user's file in place, [Get] returns the
    handle of that file, and the handle has [isTemporary] true: it is the
    one [findConfig] made. *)
Theorem Get_user_handle_marked_temporary :
  (forall (World File Watcher : Type) (os : OS World File Watcher)
          (program file : string) (s : State World File Watcher),
     userRoot (world s) <> ".config" ->
     os_Stat (path.Join [userRoot (world s); program; file]) (world s)
     = None ->
     exists h s',
       Get program file s = Returned (Some h, None) s'
       /\ getPath h = path.Join [userRoot (world s); program; file]
       /\ isTemporary h = true)
  /\ SimFS.getenv "XDG_CONFIG_HOME" SimFS.withUserConfig = "/home/u/.config"
  /\ SimFS.stat "/home/u/.config/fonts/fonts.conf" SimFS.withUserConfig
     = None
  /\ returned (Get "fonts" "fonts.conf" (SimFS.start SimFS.withUserConfig))
     = Some (Some (mkConfig "/home/u/.config" "fonts" "fonts.conf" true),
             None)
  /\ getPath (mkConfig "/home/u/.config" "fonts" "fonts.conf" true)
     = "/home/u/.config/fonts/fonts.conf".
Proof.
  split; [|evaluated].
  intros World File Watcher os program file s Hroot Hstat.
  rewrite (Get_user_config _ _ _ Hroot Hstat).
  do 2 eexists. repeat split.
Qed.

(** C6, as stated, fails: in a home that cannot be written the system
    configuration is found, the copy into the user root fails, and control
    leaves the user's part of [Get] for the system and temporary one all the
    same. *)
Lemma Get_falls_through_with_system_config :
  ~ (forall (s : State SimFS.FS string unit) (root program file : string),
       returned (Exists (foundHandle root program file) s) = Some false ->
       returned (Get_user root program file s) = Some None ->
       SimFS.stat (path.Join ["/etc"; program; file]) (world s) <> None).
Proof.
  intros H.
  apply (H (SimFS.start SimFS.readonlyHome) "/home/u/.config" "fonts"
           "fonts.conf"); vm_compute; reflexivity.
Qed.

(** A new user: the user root is set, the user has no file yet, and the
    copy of the system configuration is the handle [Get] returns. *)
Lemma Get_copies_or_falls_through_witness :
  userRoot (os := SimFS.sim) SimFS.newUser <> ".config"
  /\ SimFS.stat
       (path.Join [userRoot (os := SimFS.sim) SimFS.newUser; "fonts";
                   "fonts.conf"])
       SimFS.newUser <> None
  /\ exists h s2,
       Get "fonts" "fonts.conf" (SimFS.start SimFS.newUser)
       = Returned (Some h, None) s2
       /\ h = mkConfig "/home/u/.config" "fonts" "fonts.conf" false.
Proof.
  split; [vm_compute; discriminate|].
  split; [vm_compute; discriminate|].
  destruct (Get_copies_or_falls_through (os := SimFS.sim) "fonts" "fonts.conf"
              (SimFS.start SimFS.newUser))
    as (h & err & s2 & Hcopy & _ & Hok & _ & Hmissing).
  - vm_compute. discriminate.
  - vm_compute. discriminate.
  - assert (Herr : err = None).
    { apply (f_equal returned) in Hcopy. vm_compute in Hcopy.
      now injection Hcopy as _ <-. }
    destruct (Hok Herr) as [-> ->]. eexists _, s2. split; reflexivity.
Defined.

(** C10: [copyConf], and so [makeTmp], returns the handle of the
    destination whether or not it also returns an error; the caller of a
    failed copy holds both.  What the failed copy did before it failed stays
    done: copying a configuration that is not there leaves the directories
    it made for it. *)
Theorem copyConf_returns_handle_with_error :
  (forall (World File Watcher : Type) (os : OS World File Watcher)
          (c : Config) (root program file : string)
          (s : State World File Watcher),
     exists err s',
       copyConf c root program file s
       = Returned (Some (copiedHandle root program file), err) s')
  /\ (forall (World File Watcher : Type) (os : OS World File Watcher)
             (c : Config) (s : State World File Watcher),
        makeTmp c s = copyConf c "/tmp" (programName c) (confName c) s)
  /\ (let o := copyConf (os := SimFS.sim)
                 (mkConfig "/etc" "fonts" "missing.conf" false)
                 "/tmp" "fonts" "missing.conf" (SimFS.start SimFS.system) in
      returned o
      = Some (Some (mkConfig "/tmp" "fonts" "missing.conf" true),
              Some (SysError ENOENT))
      /\ SimFS.dirs SimFS.system !! "/tmp/fonts" = None
      /\ SimFS.dirs (world (final o)) !! "/tmp/fonts" = Some perm0700).
Proof.
  split; [|split; [reflexivity | evaluated]].
  intros World File Watcher os c root program file s.
  apply copyConf_returns.
Qed.

(** ** The watcher *)
Section Watching.
Context {World File Watcher : Type} {os : OS World File Watcher}.
Implicit Types s : State World File Watcher.

(** The [switch] reaches [continue] for every mask that is none of the
    three it names. *)
Lemma skipsEvent_qualifies (mask : Z) :
  skipsEvent mask = negb (qualifies mask).
Proof.
  unfold skipsEvent, qualifies, GoSwitch.switch.
  cbn [GoSwitch.findCase GoSwitch.findDefault GoSwitch.guard].
  destruct (Z.eqb mask IN_MODIFY); [reflexivity|].
  destruct (Z.eqb mask IN_MOVE_SELF); [reflexivity|].
  destruct (Z.eqb mask IN_DELETE_SELF); reflexivity.
Qed.

Lemma qualifies_iff (mask : Z) :
  qualifies mask = true
  <-> mask = IN_MODIFY \/ mask = IN_MOVE_SELF \/ mask = IN_DELETE_SELF.
Proof.
  unfold qualifies. rewrite !orb_true_iff, !Z.eqb_eq. tauto.
Qed.

(** A round sends at most one value, and never panics. *)
Lemma listenRound_returns (c : Config) (r : Received) s :
  exists sent s',
    listenRound c r s = Returned sent s'
    /\ length sent = publications [r].
Proof.
  destruct r as [mask|err]; cbn [listenRound]; [|now eexists _, _].
  unfold publications. cbn [List.filter].
  rewrite skipsEvent_qualifies.
  destruct (qualifies mask); cbn [negb]; [|now eexists _, _].
  unfold bind, After, Read, ReadFile, call. cbn [world calls].
  destruct (ioutil_ReadFile (getPath c) (time_After 50000000 (world s)))
    as [[newConf|err] w]; now eexists _, _.
Qed.

(** The loop sends one value for each qualifying event and for each
    error of the watcher it received, and none for anything else. *)
Lemma listenLoop_returns (c : Config) (received : list Received) s :
  exists sent s',
    listenLoop c received s = Returned sent s'
    /\ length sent = publications received.
Proof.
  revert s. induction received as [|r rest IH]; intros s.
  - now eexists _, _.
  - destruct (listenRound_returns c r s) as (sent & s1 & Hround & Hlen).
    destruct (IH s1) as (later & s2 & Hloop & Hlater).
    exists (sent ++ later), s2. cbn [listenLoop].
    erewrite bind_returned by exact Hround.
    erewrite bind_returned by exact Hloop.
    split; [reflexivity|].
    rewrite length_app, Hlen, Hlater. unfold publications.
    cbn [List.filter]. now destruct r as [mask|]; [destruct (qualifies mask)|].
Qed.

(** A round for an event: for a mask that is none of modify, move-self and
    delete-self it sends nothing and calls nothing; for one of these three
    it waits, reads the file and sends exactly one value. *)
Lemma listenRound_event (c : Config) (mask : Z) s :
  (mask <> IN_MODIFY /\ mask <> IN_MOVE_SELF /\ mask <> IN_DELETE_SELF ->
   listenRound c (FromEvent mask) s = Returned [] s)
  /\ (mask = IN_MODIFY \/ mask = IN_MOVE_SELF \/ mask = IN_DELETE_SELF ->
      exists sent s',
        listenRound c (FromEvent mask) s = Returned [sent] s'
        /\ calls s'
           = calls s ++ [CallAfter 50000000; CallReadFile (getPath c)]
        /\ match Read c (logged (mkState (time_After 50000000 (world s))
                                   (calls s)) (CallAfter 50000000)) with
           | Returned (inl newConf) s'' => sent = ToData newConf /\ s' = s''
           | Returned (inr err) s'' => sent = ToErrs err /\ s' = s''
           | Panicked _ => False
           end).
Proof.
  cbn [listenRound]. rewrite skipsEvent_qualifies. split.
  - intros (H1 & H2 & H3).
    destruct (qualifies mask) eqn:Hq; [|reflexivity].
    apply qualifies_iff in Hq. tauto.
  - intros Hq. apply qualifies_iff in Hq. rewrite Hq. cbn [negb].
    unfold bind, After, Read, ReadFile, call, logged. cbn [world calls].
    destruct (ioutil_ReadFile (getPath c) (time_After 50000000 (world s)))
      as [[newConf|err] w]; eexists _, _;
      (split; [reflexivity|]); cbn [calls]; rewrite <- app_assoc;
      repeat split.
Qed.

(** The loop on what it received first and then on what it received next
    is the loop on both. *)
Lemma listenLoop_app (c : Config) (before after : list Received) s
    (sent1 sent2 : list Sent) (s1 s2 : State World File Watcher) :
  listenLoop c before s = Returned sent1 s1 ->
  listenLoop c after s1 = Returned sent2 s2 ->
  listenLoop c (before ++ after) s = Returned (sent1 ++ sent2) s2.
Proof.
  revert s sent1. induction before as [|r before IH]; intros s sent1 H1 H2.
  - cbn in H1. injection H1 as <- <-. exact H2.
  - destruct (listenRound_returns c r s) as (sent & s0 & Hround & _).
    destruct (listenLoop_returns c before s0) as (later & s0' & Hloop & _).
    cbn [listenLoop] in H1.
    rewrite (bind_returned _ _ _ _ _ Hround) in H1.
    rewrite (bind_returned _ _ _ _ _ Hloop) in H1.
    injection H1 as <- <-.
    cbn [listenLoop app].
    rewrite (bind_returned _ _ _ _ _ Hround).
    rewrite (bind_returned _ _ _ _ _ (IH s0 later Hloop H2)).
    cbn [ret]. now rewrite <- app_assoc.
Qed.

(** C7: the loop, for every event it receives, whatever it received before
    and whatever it receives after: what the loop sends is what it sent for
    the values before, then what it sends for this event, then what it
    sends for the values after.  For an event whose mask is none of modify,
    move-self and delete-self it sends nothing and calls nothing; for one
    of these three it waits, reads the file and sends exactly one value: the
    bytes on [data] when [Read] returns them, the error on [errs] when it
    returns one. *)
Theorem listenLoop_publishes (c : Config) (before after : list Received)
    (mask : Z) s :
  exists sent1 s1 pub s1' sent2 s2,
    listenLoop c before s = Returned sent1 s1
    /\ listenLoop c after s1' = Returned sent2 s2
    /\ listenLoop c (before ++ FromEvent mask :: after) s
       = Returned (sent1 ++ pub ++ sent2) s2
    /\ (mask <> IN_MODIFY /\ mask <> IN_MOVE_SELF /\ mask <> IN_DELETE_SELF ->
        pub = [] /\ s1' = s1)
    /\ (mask = IN_MODIFY \/ mask = IN_MOVE_SELF \/ mask = IN_DELETE_SELF ->
        exists sent,
          pub = [sent]
          /\ calls s1'
             = calls s1 ++ [CallAfter 50000000; CallReadFile (getPath c)]
          /\ match Read c (logged (mkState (time_After 50000000 (world s1))
                                     (calls s1)) (CallAfter 50000000)) with
             | Returned (inl newConf) s'' => sent = ToData newConf /\ s1' = s''
             | Returned (inr err) s'' => sent = ToErrs err /\ s1' = s''
             | Panicked _ => False
             end).
Proof.
  destruct (listenLoop_returns c before s) as (sent1 & s1 & H1 & _).
  destruct (listenRound_event c mask s1) as [Hskip Hsend].
  destruct (listenRound_returns c (FromEvent mask) s1)
    as (pub & s1' & Hround & _).
  destruct (listenLoop_returns c after s1') as (sent2 & s2 & H2 & _).
  exists sent1, s1, pub, s1', sent2, s2.
  split; [exact H1|]. split; [exact H2|]. split.
  - apply (listenLoop_app c before (FromEvent mask :: after) s sent1
             (pub ++ sent2) s1 s2 H1).
    cbn [listenLoop].
    rewrite (bind_returned _ _ _ _ _ Hround).
    now rewrite (bind_returned _ _ _ _ _ H2).
  - split.
    + intros Hnone. rewrite (Hskip Hnone) in Hround.
      injection Hround as <- <-. now split.
    + intros Hone. destruct (Hsend Hone) as (sent & s' & Hrun & Hcalls & Hread).
      rewrite Hrun in Hround. injection Hround as <- <-.
      exists sent. now split.
Qed.
End Watching.

(** ** The copy on the simulated file system *)
Section SimulatedCopy.
Import SimFS.

Lemma mkdirAll_files name perm fs fs' :
  mkdirAll name perm fs = (None, fs') -> files fs' = files fs.
Proof.
  unfold mkdirAll.
  repeat match goal with
         | |- context [if ?b then _ else _] => destruct b
         end; intros H; inversion H; reflexivity.
Qed.

Lemma open_inl name fs f fs' :
  open name fs = (inl f, fs') -> f = name /\ fs' = fs.
Proof.
  unfold open.
  repeat match goal with
         | |- context [if ?b then _ else _] => destruct b
         end; intros H; inversion H; auto.
Qed.

Lemma create_inl name fs f fs' :
  create name fs = (inl f, fs') ->
  f = name /\ files fs' = <[name := []]> (files fs).
Proof.
  unfold create.
  repeat match goal with
         | |- context [if ?b then _ else _] => destruct b
         end; intros H; inversion H; auto.
Qed.

(** A copy in which every call succeeded leaves in the destination the
    bytes of the source, all of them and nothing else. *)
Lemma copiedAll_contents (c from : Config) (s s' : State FS string unit) :
  copiedAll c from s s' ->
  getPath c <> getPath from ->
  exists data,
    files (world s) !! getPath from = Some data
    /\ files (world s') !! getPath c = Some data.
Proof.
  intros (w1 & w2 & w3 & w4 & fromFile & toFile & n
          & Hmk & Hop & Hcr & Hcp & Hw & _) Hne.
  cbn in Hmk, Hop, Hcr, Hcp, Hw.
  apply mkdirAll_files in Hmk.
  apply open_inl in Hop as [-> ->].
  apply create_inl in Hcr as [-> Hcr].
  unfold copy in Hcp. rewrite Hcr in Hcp.
  rewrite lookup_insert_ne, lookup_insert_eq in Hcp by congruence.
  revert Hcp. case_match eqn:Hdata; intros Hcp; [|inversion Hcp].
  injection Hcp as _ Hw4. eexists. rewrite <- Hmk. split; [exact Hdata|].
  rewrite Hw, <- Hw4. cbn. now rewrite lookup_insert_eq.
Qed.
End SimulatedCopy.

(** The temporary copy of the system configuration of [fonts]: no error,
    the six calls, [/tmp/fonts] made with [0700], and the bytes of the
    system configuration in [/tmp/fonts/fonts.conf]. *)
Lemma copyConf_copies_witness :
  let c := foundHandle "/etc" "fonts" "fonts.conf" in
  let o := copyConf (os := SimFS.sim) c "/tmp" "fonts" "fonts.conf"
             (SimFS.start SimFS.system) in
  returned o = Some (Some (mkConfig "/tmp" "fonts" "fonts.conf" true), None)
  /\ copiedAll (mkConfig "/tmp" "fonts" "fonts.conf" true) c
       (SimFS.start SimFS.system) (final o)
  /\ SimFS.dirs (world (final o)) !! "/tmp/fonts" = Some perm0700
  /\ SimFS.files (world (final o)) !! "/tmp/fonts/fonts.conf"
     = Some SimFS.fontsConf.
Proof.
  intros c o.
  split; [vm_compute; reflexivity|].
  split; [|split; vm_compute; reflexivity].
  destruct (copyConf_copies (os := SimFS.sim) c "/tmp" "fonts" "fonts.conf"
              (SimFS.start SimFS.system))
    as (newConf & err & s' & Hrun & _ & _ & _ & _ & _ & Hall).
  fold o in Hrun.
  assert (Hret : returned o = Some (Some newConf, err)) by now rewrite Hrun.
  assert (Hfin : final o = s') by now rewrite Hrun.
  vm_compute in Hret. injection Hret as <- <-.
  rewrite Hfin. now apply Hall.
Defined.

(** On a machine with the system configuration of [fonts], a loop that
    receives an access event (mask 1), a modify event and an error of the
    watcher: it sends nothing for the first, the bytes of the file on [data]
    for the second, the error on [errs] for the third. *)
Lemma listenLoop_publishes_witness :
  let c := foundHandle "/etc" "fonts" "fonts.conf" in
  let received := [FromEvent 1] ++ FromEvent IN_MODIFY
                    :: [FromError (SysError EIO)] in
  returned (listenLoop (os := SimFS.sim) c received (SimFS.start SimFS.system))
  = Some [ToData SimFS.fontsConf; ToErrs (SysError EIO)]
  /\ exists sent1 sent sent2,
       returned (listenLoop (os := SimFS.sim) c received
                   (SimFS.start SimFS.system))
       = Some (sent1 ++ [sent] ++ sent2).
Proof.
  intros c received. split; [vm_compute; reflexivity|].
  destruct (listenLoop_publishes (os := SimFS.sim) c [FromEvent 1]
              [FromError (SysError EIO)] IN_MODIFY (SimFS.start SimFS.system))
    as (sent1 & s1 & pub & s1' & sent2 & s2 & _ & _ & Hrun & _ & Hsend).
  destruct (Hsend (or_introl eq_refl)) as (sent & Hpub & _).
  exists sent1, sent, sent2. unfold received.
  rewrite Hrun, Hpub. reflexivity.
Defined.

(** ** [Get] on the simulated machines *)

(** In a home that cannot be written [Get] ends with the copy under [/tmp],
    after finding the system configuration twice. *)
Lemma Get_readonly_home :
  let o := Get (os := SimFS.sim) "fonts" "fonts.conf"
             (SimFS.start SimFS.readonlyHome) in
  returned o = Some (Some (mkConfig "/tmp" "fonts" "fonts.conf" true), None)
  /\ calls (final o)
     = [CallGetenv "XDG_CONFIG_HOME";
        CallStat "/home/u/.config/fonts/fonts.conf";
        CallStat "/etc/fonts/fonts.conf";
        CallMkdirAll "/home/u/.config/fonts" perm0700;
        CallStat "/etc/fonts/fonts.conf";
        CallMkdirAll "/tmp/fonts" perm0700;
        CallOpen "/etc/fonts/fonts.conf";
        CallCreate "/tmp/fonts/fonts.conf";
        @CallCopy string unit "/tmp/fonts/fonts.conf"
          "/etc/fonts/fonts.conf";
        @CallClose string unit "/tmp/fonts/fonts.conf";
        @CallClose string unit "/etc/fonts/fonts.conf"].
Proof. intros o. split; vm_compute; reflexivity. Qed.

(** The handle of one and the same user file: [isTemporary] is false when
    [Get] has just made the file, and true when [Get] finds it afterwards. *)
Lemma Get_again_marks_temporary :
  let first := Get (os := SimFS.sim) "fonts" "fonts.conf"
                 (SimFS.start SimFS.newUser) in
  let again := Get (os := SimFS.sim) "fonts" "fonts.conf"
                 (SimFS.start (world (final first))) in
  returned first
  = Some (Some (mkConfig "/home/u/.config" "fonts" "fonts.conf" false), None)
  /\ returned again
     = Some (Some (mkConfig "/home/u/.config" "fonts" "fonts.conf" true), None).
Proof. intros first again. split; vm_compute; reflexivity. Qed.

(** ** The earlier revisions *)

(** [Exists] of [config.go] answers the opposite of [Exists]. *)
Lemma config_go_Exists_inverted {World File Watcher : Type}
    {os : OS World File Watcher} (c : Config) (s : State World File Watcher) :
  returned (config_go.Exists c s) = option_map negb (returned (Exists c s)).
Proof.
  unfold config_go.Exists. rewrite Exists_run.
  erewrite bind_returned by apply Stat_run.
  now destruct (os_Stat (getPath c) (world s)).
Qed.

(** The loop of [readconfig.go] skips the move-self and delete-self events
    that the loop of [Listen] reads the file for. *)
Lemma readconfig_go_skips_more :
  readconfig_go.skipsEvent IN_MOVE_SELF = true
  /\ readconfig_go.skipsEvent IN_DELETE_SELF = true
  /\ readconfig_go.skipsEvent IN_MODIFY = false.
Proof. repeat split. Qed.

(** * More of the package *)

(** ** [getPath] and [splitPath] under an absolute root *)
Section AbsoluteRoots.
Import path.

Lemma absolutePath_app (a b : list string) :
  absolutePath (a ++ b) = absolutePath a +:+ absolutePath b.
Proof.
  induction a as [|e a IH]; [reflexivity|].
  cbn [absolutePath app]. rewrite IH.
  change ("/" +:+ e +:+ absolutePath a) with (String slash (e +:+ absolutePath a)).
  cbn. now rewrite append_assoc.
Qed.

Lemma elementEnds_absolutePath names t :
  elementEnds t = true -> elementEnds (absolutePath names +:+ t) = true.
Proof. now destruct names. Qed.

Lemma cleanLoop_absolutePath rooted names t out dd :
  entryNames names = true -> elementEnds t = true ->
  cleanLoop rooted (absolutePath names +:+ t) out dd
  = cleanLoop rooted t (appendNames rooted names out) dd.
Proof.
  revert out. induction names as [|e names IH]; intros out Hn Ht;
    [reflexivity|].
  cbn in Hn. apply andb_true_iff in Hn as [He Hn].
  cbn [absolutePath appendNames].
  change (("/" +:+ e +:+ absolutePath names) +:+ t)
    with (String slash ((e +:+ absolutePath names) +:+ t)).
  rewrite cleanLoop_slash, append_assoc.
  rewrite cleanLoop_entry
    by (assumption || now apply elementEnds_absolutePath).
  now apply IH.
Qed.

Lemma length_appendAll e (out : buffer) :
  length (appendAll e out) = (String.length e + length out)%nat.
Proof.
  revert out. induction e as [|c e IH]; intros out; [reflexivity|].
  cbn. rewrite IH. cbn. lia.
Qed.

(** Once a rooted buffer holds more than its first slash, every name is
    written after a slash. *)
Lemma bufferString_appendNames names (out : buffer) :
  (2 <= length out)%nat ->
  bufferString (appendNames true names out)
  = bufferString out +:+ absolutePath names.
Proof.
  revert out. induction names as [|e names IH]; intros out Hlen.
  - cbn. now rewrite append_empty_r.
  - cbn [appendNames absolutePath].
    assert (Hs : addSlash true out = slash :: out).
    { unfold addSlash. cbn.
      destruct (Nat.eqb_spec (length out) 1); [lia | reflexivity]. }
    rewrite Hs, IH by (rewrite length_appendAll; cbn; lia).
    rewrite bufferString_appendAll, bufferString_cons.
    now rewrite !append_assoc.
Qed.

Lemma appendNames_rooted e names :
  entryName e = true ->
  bufferString (appendNames true (e :: names) [slash])
  = absolutePath (e :: names)
  /\ appendNames true (e :: names) [slash] <> [].
Proof.
  intros He.
  assert (He0 : e <> "")
    by now apply component_nonempty, entryName_component.
  assert (Hlen : (2 <= length (appendAll e [slash]))%nat).
  { rewrite length_appendAll. destruct e; [congruence | cbn; lia]. }
  cbn [appendNames]. change (addSlash true [slash]) with [slash].
  split.
  - rewrite bufferString_appendNames by exact Hlen.
    rewrite bufferString_appendAll. reflexivity.
  - intros Hnil.
    pose proof (bufferString_appendNames names _ Hlen) as Hb.
    rewrite Hnil, bufferString_appendAll in Hb.
    destruct e; [congruence | discriminate Hb].
Qed.

(** An absolute path of names is clean, with or without a slash after
    it. *)
Lemma Clean_absolutePath names t :
  names <> [] -> entryNames names = true -> t = "" \/ t = "/" ->
  Clean (absolutePath names +:+ t) = absolutePath names.
Proof.
  intros Hne Hn Ht. destruct names as [|e names]; [congruence|].
  pose proof Hn as Hn'. cbn in Hn'. apply andb_true_iff in Hn' as [He _].
  assert (Hends : elementEnds t = true) by now destruct Ht as [-> | ->].
  assert (Hloop : cleanLoop true (absolutePath (e :: names) +:+ t) [slash] 1
                  = appendNames true (e :: names) [slash]).
  { rewrite cleanLoop_absolutePath by assumption.
    now destruct Ht as [-> | ->]. }
  destruct (appendNames_rooted e names He) as [Hb Hnil].
  cbn [absolutePath] in *.
  change (("/" +:+ e +:+ absolutePath names) +:+ t)
    with (String slash ((e +:+ absolutePath names) +:+ t)) in *.
  rewrite cleanLoop_slash in Hloop.
  unfold Clean. cbn [Ascii.eqb]. change (Ascii.eqb slash slash) with true.
  cbn iota. rewrite Hloop.
  destruct (appendNames true (e :: names) [slash]); [congruence | exact Hb].
Qed.


Lemma absolutePath_nonempty names :
  names <> [] -> absolutePath names <> "".
Proof. now destruct names. Qed.

Lemma absolutePath_snoc names e :
  absolutePath (names ++ [e]) = absolutePath names +:+ "/" +:+ e.
Proof.
  rewrite absolutePath_app. cbn [absolutePath]. now rewrite append_empty_r.
Qed.

Lemma absolutePath_two names p f :
  absolutePath (names ++ [p; f]) = absolutePath names +:+ "/" +:+ p +:+ "/" +:+ f.
Proof.
  rewrite absolutePath_app. cbn [absolutePath]. now rewrite append_empty_r.
Qed.

Lemma entryNames_snoc names e :
  entryNames names = true -> entryName e = true ->
  entryNames (names ++ [e]) = true.
Proof.
  unfold entryNames. intros Hn He. rewrite forallb_app, Hn. cbn.
  now rewrite He.
Qed.

(** What [path.Join] makes of an absolute root of names, a program and a
    file. *)
Lemma getPath_absolute_unfolded names program file tmp :
  names <> [] -> entryNames names = true ->
  entryName program = true -> entryName file = true ->
  getPath (mkConfig (absolutePath names) program file tmp)
  = absolutePath names +:+ "/" +:+ program +:+ "/" +:+ file.
Proof.
  intros Hne Hn Hp Hf. unfold getPath. cbn [programPath programName confName].
  rewrite Join3 by now apply absolutePath_nonempty.
  rewrite <- absolutePath_two.
  rewrite <- (append_empty_r (absolutePath (names ++ [program; file]))) at 1.
  apply Clean_absolutePath; [now destruct names | | now left].
  unfold entryNames in *. rewrite forallb_app, Hn. cbn. now rewrite Hp, Hf.
Qed.
End AbsoluteRoots.

(** X1: under an absolute root of names, [/e1/.../en], and with a program
    and a file that are names, the full path is the three joined by
    slashes, unchanged by the cleaning of [path.Join]. *)
Theorem getPath_absolute (names : list string) (program file : string)
    (tmp : bool) :
  names <> [] -> entryNames names = true ->
  entryName program = true -> entryName file = true ->
  getPath (mkConfig (absolutePath names) program file tmp)
  = absolutePath names +:+ "/" +:+ program +:+ "/" +:+ file.
Proof. apply getPath_absolute_unfolded. Qed.

(** The configuration of [fonts] in a user's directory. *)
Lemma getPath_absolute_witness :
  getPath (mkConfig (absolutePath ["home"; "u"; ".config"]) "fonts"
             "fonts.conf" false)
  = "/home/u/.config/fonts/fonts.conf".
Proof.
  apply (getPath_absolute ["home"; "u"; ".config"] "fonts" "fonts.conf" false);
    [discriminate | reflexivity | reflexivity | reflexivity].
Defined.

(** X2: under an absolute root of names, [splitPath] of the full path gives
    back the root, the program and the file, and no error. *)
Theorem splitPath_getPath_absolute (names : list string)
    (program file : string) (tmp : bool) :
  names <> [] -> entryNames names = true ->
  entryName program = true -> entryName file = true ->
  splitPath (getPath (mkConfig (absolutePath names) program file tmp))
  = (absolutePath names, program, file, None).
Proof.
  intros Hne Hn Hp Hf.
  rewrite getPath_absolute_unfolded by assumption.
  pose proof (entryName_component _ Hp) as Hpc.
  pose proof (entryName_component _ Hf) as Hfc.
  pose proof (noSlash_of_entry _ Hp) as Hpn.
  pose proof (noSlash_of_entry _ Hf) as Hfn.
  rewrite splitPath_unfold.
  rewrite <- (append_assoc (absolutePath names) "/" (program +:+ "/" +:+ file)).
  rewrite <- (append_assoc (absolutePath names +:+ "/") program ("/" +:+ file)).
  change ("/" +:+ file) with (String path.slash file).
  rewrite (Dir_slash _ file Hfn), (Base_slash _ file Hfc).
  rewrite (append_assoc (absolutePath names) "/" program).
  rewrite <- (absolutePath_snoc names program).
  rewrite Clean_absolutePath
    by (try (now destruct names); try (now right);
        now apply entryNames_snoc).
  rewrite absolutePath_snoc.
  change ("/" +:+ program) with (String path.slash program).
  rewrite (Dir_slash _ program Hpn), (Base_slash _ program Hpc).
  rewrite Clean_absolutePath by (assumption || now right).
  reflexivity.
Qed.

(** The system configuration of [fonts]. *)
Lemma splitPath_getPath_absolute_witness :
  splitPath (getPath (mkConfig (absolutePath ["etc"]) "fonts" "fonts.conf" true))
  = ("/etc", "fonts", "fonts.conf", None).
Proof.
  apply (splitPath_getPath_absolute ["etc"] "fonts" "fonts.conf" true);
    [discriminate | reflexivity | reflexivity | reflexivity].
Defined.

(** X3: the full path of a handle is empty exactly when its three fields
    are; any other handle has a non-empty path. *)
Theorem getPath_empty_iff (c : Config) :
  getPath c = ""
  <-> programPath c = "" /\ programName c = "" /\ confName c = "".
Proof.
  unfold getPath, path.Join. cbn [fold_left].
  split.
  - destruct (Z.eqb_spec (0 + path.len (programPath c)
                          + path.len (programName c)
                          + path.len (confName c)) 0) as [Hz|Hz].
    + intros _. unfold path.len in Hz.
      destruct (programPath c), (programName c), (confName c);
        cbn in Hz; try lia. tauto.
    + intros H. now apply Clean_nonempty in H.
  - intros (-> & -> & ->). reflexivity.
Qed.

(** ** The directory [read] makes *)
Section ReadDirectory.
Context {World File Watcher : Type} {os : OS World File Watcher}.
Implicit Types s : State World File Watcher.

End ReadDirectory.


(** ** What [Get] returns and what it leaves alone *)
Section GetResults.
Context {World File Watcher : Type} {os : OS World File Watcher}.
Implicit Types s : State World File Watcher.

Lemma Get_system_missing program file s :
  os_Stat (path.Join ["/etc"; program; file]) (world s) <> None ->
  Get_system program file s
  = Returned (None, Some (noSystemConfig program file))
      (logged s (CallStat (path.Join ["/etc"; program; file]))).
Proof.
  intros Hsys. unfold Get_system, getSysConfig.
  erewrite bind_returned by (apply findConfig_missing; exact Hsys).
  reflexivity.
Qed.

Lemma Get_system_shape program file s :
  exists s',
    (exists h,
       Get_system program file s = Returned (Some h, None) s'
       /\ programName h = program /\ confName h = file
       /\ (programPath h = "/tmp" \/ programPath h = "/etc"))
    \/ (Get_system program file s
        = Returned (None, Some (noSystemConfig program file)) s'
        /\ os_Stat (path.Join ["/etc"; program; file]) (world s') <> None).
Proof.
  destruct (os_Stat (path.Join ["/etc"; program; file]) (world s))
    as [e|] eqn:Hsys.
  - eexists. right. split; [apply Get_system_missing; congruence|].
    rewrite world_logged. congruence.
  - destruct (Get_system_run program file s Hsys) as (err & s' & _ & Hrun).
    exists s'. left. eexists. split; [exact Hrun|].
    destruct err; cbn; auto.
Qed.

(** X5: [Get] returns either a handle and no error or no handle and an
    error, never both and never neither.  The handle is for the program and
    the file asked for, under the user's directory, [/tmp] or [/etc]; the
    error is always that of the system configuration, and it is returned
    only when the file under [/etc] cannot be statted. *)
Theorem Get_result_shape (program file : string) s :
  exists s',
    (exists h,
       Get program file s = Returned (Some h, None) s'
       /\ programName h = program /\ confName h = file
       /\ (programPath h = userRoot (world s)
           \/ programPath h = "/tmp" \/ programPath h = "/etc"))
    \/ (Get program file s
        = Returned (None, Some (noSystemConfig program file)) s'
        /\ os_Stat (path.Join ["/etc"; program; file]) (world s') <> None).
Proof.
  assert (Hsystem : forall s0,
    exists s',
      (exists h,
         Get_system program file s0 = Returned (Some h, None) s'
         /\ programName h = program /\ confName h = file
         /\ (programPath h = userRoot (world s)
             \/ programPath h = "/tmp" \/ programPath h = "/etc"))
      \/ (Get_system program file s0
          = Returned (None, Some (noSystemConfig program file)) s'
          /\ os_Stat (path.Join ["/etc"; program; file]) (world s') <> None)).
  { intros s0. destruct (Get_system_shape program file s0) as [s' [H|H]];
      exists s'; [left | now right].
    destruct H as (h & Hrun & Hp & Hf & Hroot). exists h. tauto. }
  destruct (String.eqb_spec (userRoot (world s)) ".config") as [Hroot|Hroot].
  - rewrite (Get_unresolved _ _ _ Hroot). apply Hsystem.
  - destruct (os_Stat (path.Join [userRoot (world s); program; file])
                (world s)) as [e|] eqn:Hstat.
    + destruct (copySysConfig_returns (userRoot (world s)) program file
                  (logged (askedEnv s)
                     (CallStat (path.Join [userRoot (world s); program; file]))))
        as (h & err & s2 & Hcopy & Hh).
      rewrite (Get_user_missing program file s h err s2 Hroot) by congruence.
      destruct err as [e'|]; [apply Hsystem|].
      exists s2. left. exists (copiedHandle (userRoot (world s)) program file).
      rewrite (Hh eq_refl). cbn. auto.
    + rewrite (Get_user_config _ _ _ Hroot Hstat).
      eexists. left. eexists. split; [reflexivity|]. cbn. auto.
Qed.

(** X6: when the user's file is not there, or there is no user's directory
    to look in, and the system's file is not there either, [Get] returns
    the error after asking the environment and statting only: the world is
    as it was.  With a user's directory the system's file is statted
    twice. *)
Theorem Get_fails_without_effect (program file : string) s :
  userRoot (world s) = ".config"
  \/ os_Stat (path.Join [userRoot (world s); program; file]) (world s)
     <> None ->
  os_Stat (path.Join ["/etc"; program; file]) (world s) <> None ->
  exists s',
    Get program file s
    = Returned (None, Some (noSystemConfig program file)) s'
    /\ world s' = world s
    /\ calls s'
       = calls (askedEnv s)
         ++ (if String.eqb (userRoot (world s)) ".config"
             then [CallStat (path.Join ["/etc"; program; file])]
             else [CallStat (path.Join [userRoot (world s); program; file]);
                   CallStat (path.Join ["/etc"; program; file]);
                   CallStat (path.Join ["/etc"; program; file])]).
Proof.
  intros Huser Hsys.
  destruct (String.eqb_spec (userRoot (world s)) ".config") as [Hroot|Hroot].
  - rewrite (Get_unresolved _ _ _ Hroot).
    rewrite Get_system_missing by now rewrite world_askedEnv.
    eexists. split; [reflexivity|].
    split; [now rewrite world_logged, world_askedEnv | reflexivity].
  - destruct Huser as [Huser|Huser]; [congruence|].
    set (s1 := logged (askedEnv s)
                 (CallStat (path.Join [userRoot (world s); program; file]))).
    assert (Hw1 : world s1 = world s)
      by (unfold s1; now rewrite world_logged, world_askedEnv).
    destruct (copySysConfig_missing (userRoot (world s)) program file s1)
      as [e He]; [now rewrite Hw1|].
    rewrite (Get_user_missing program file s None (Some e) _ Hroot Huser He).
    rewrite Get_system_missing by now rewrite world_logged, Hw1.
    eexists. split; [reflexivity|].
    split; [now rewrite !world_logged, Hw1|].
    unfold s1, logged. cbn [calls]. now rewrite <- !app_assoc.
Qed.

(** X7: when the user's file is there [Get] returns its handle after asking
    the environment and one [os.Stat]: it does not look under [/etc], and
    the world is as it was. *)
Theorem Get_user_config_only_looks (program file : string) s :
  userRoot (world s) <> ".config" ->
  os_Stat (path.Join [userRoot (world s); program; file]) (world s) = None ->
  exists h s',
    Get program file s = Returned (Some h, None) s'
    /\ getPath h = path.Join [userRoot (world s); program; file]
    /\ world s' = world s
    /\ calls s'
       = calls (askedEnv s)
         ++ [CallStat (path.Join [userRoot (world s); program; file])].
Proof.
  intros Hroot Hstat. rewrite (Get_user_config _ _ _ Hroot Hstat).
  do 2 eexists. split; [reflexivity|]. split; [reflexivity|].
  split; [now rewrite world_logged, world_askedEnv | reflexivity].
Qed.
End GetResults.

(** A user without any configuration of [fonts], on a machine without
    one. *)
Lemma Get_fails_without_effect_witness :
  exists s',
    Get "fonts" "fonts.conf" (SimFS.start SimFS.bare)
    = Returned (None, Some (noSystemConfig "fonts" "fonts.conf")) s'
    /\ world s' = SimFS.bare.
Proof.
  destruct (Get_fails_without_effect (os := SimFS.sim) "fonts" "fonts.conf"
              (SimFS.start SimFS.bare)) as (s' & Hrun & Hworld & _).
  - left. vm_compute. reflexivity.
  - vm_compute. discriminate.
  - exists s'. split; [exact Hrun | exact Hworld].
Defined.

(** A user with a configuration of their own. *)
Lemma Get_user_config_only_looks_witness :
  exists h s',
    Get "fonts" "fonts.conf" (SimFS.start SimFS.withUserConfig)
    = Returned (Some h, None) s'
    /\ world s' = SimFS.withUserConfig.
Proof.
  destruct (Get_user_config_only_looks (os := SimFS.sim) "fonts" "fonts.conf"
              (SimFS.start SimFS.withUserConfig))
    as (h & s' & Hrun & _ & Hworld & _).
  - vm_compute. discriminate.
  - vm_compute. reflexivity.
  - exists h, s'. split; [exact Hrun | exact Hworld].
Defined.

(** ** The calls of [Get] *)
Section GetCalls.
Context {World File Watcher : Type} {os : OS World File Watcher}.
Implicit Types s : State World File Watcher.

Lemma grewBy_refl P s : grewBy P s s.
Proof. exists []. split; [now rewrite app_nil_r | constructor]. Qed.

Lemma grewBy_trans P s s1 s2 :
  grewBy P s s1 -> grewBy P s1 s2 -> grewBy P s s2.
Proof.
  intros (l1 & H1 & F1) (l2 & H2 & F2). exists (l1 ++ l2).
  split; [now rewrite H2, H1, app_assoc | now apply Forall_app].
Qed.

Lemma grewBy_logged (P : Call File Watcher -> Prop) s c :
  P c -> grewBy P s (logged s c).
Proof. intros Hc. exists [c]. split; [reflexivity | now repeat constructor]. Qed.

Lemma grewBy_weaken (P Q : Call File Watcher -> Prop) s s' :
  (forall c, P c -> Q c) -> grewBy P s s' -> grewBy Q s s'.
Proof.
  intros HPQ (l & H & F). exists l. split; [exact H|].
  eapply Forall_impl; [exact F | exact HPQ].
Qed.

Lemma grewBy_askedEnv root program file s :
  grewBy (lookupCall root program file) s (askedEnv s).
Proof.
  unfold askedEnv. destruct (String.eqb _ _).
  - eapply grewBy_trans; apply grewBy_logged; exact I.
  - apply grewBy_logged. exact I.
Qed.

(** [read] in full: it returns, its calls are those of a copy, and it
    keeps of the world what the calls of a copy keep. *)
Lemma read_full (dst src : Config) s :
  exists err s',
    read dst src s = Returned err s'
    /\ grewBy (copyCall dst src) s s'
    /\ (forall P : World -> Prop,
          copyKeeps P -> P (world s) -> P (world s')).
Proof.
  unfold read, MkdirAll, Open, Create, Copy, Close.
  destruct (os_MkdirAll (path.Join [programPath dst; programName dst])
              perm0700 (world s)) as [[e|] w1] eqn:Hmk;
    rewrite (bind_returned _ _ _ _ _ (call_run _ _ _ _ _ Hmk)).
  { do 2 eexists. split; [reflexivity|]. split.
    - eexists. split; [reflexivity|]. repeat constructor.
    - intros P (Kmk & _) HP. cbn.
      specialize (Kmk (path.Join [programPath dst; programName dst]) perm0700
                  _ HP). rewrite Hmk in Kmk. exact Kmk. }
  destruct (os_Open (getPath src) w1) as [[fromFile|e] w2] eqn:Hop;
    rewrite (bind_returned _ _ _ _ _ (call_run _ _ (mkState w1 _) _ _ Hop)).
  2:{ do 2 eexists. split; [reflexivity|]. split.
      - eexists. split; [cbn [calls]; now rewrite <- app_assoc|].
        repeat constructor.
      - intros P (Kmk & Kop & _) HP. cbn.
        specialize (Kmk (path.Join [programPath dst; programName dst]) perm0700
                  _ HP). rewrite Hmk in Kmk. cbn [snd] in Kmk.
        specialize (Kop (getPath src) _ Kmk). rewrite Hop in Kop. exact Kop. }
  destruct (os_Create (getPath dst) w2) as [[toFile|e] w3] eqn:Hcr;
    rewrite (bind_returned _ _ _ _ _ (call_run _ _ (mkState w2 _) _ _ Hcr)).
  2:{ do 2 eexists. split; [reflexivity|]. split.
      - eexists. split; [cbn [calls]; now rewrite <- !app_assoc|].
        repeat constructor.
      - intros P (Kmk & Kop & Kcr & _ & Kcl) HP. cbn.
        specialize (Kmk (path.Join [programPath dst; programName dst]) perm0700
                  _ HP). rewrite Hmk in Kmk. cbn [snd] in Kmk.
        specialize (Kop (getPath src) _ Kmk). rewrite Hop in Kop. cbn [snd] in Kop.
        specialize (Kcr (getPath dst) _ Kop). rewrite Hcr in Kcr. cbn [snd] in Kcr.
        now apply Kcl. }
  destruct (io_Copy toFile fromFile w3) as [[n err] w4] eqn:Hcp;
    rewrite (bind_returned _ _ _ _ _ (call_run _ _ (mkState w3 _) _ _ Hcp)).
  exists err. eexists. split; [now destruct err|]. split.
  - eexists. split; [cbn [calls]; now rewrite <- !app_assoc|].
    repeat constructor.
  - intros P (Kmk & Kop & Kcr & Kcp & Kcl) HP. cbn.
    specialize (Kmk (path.Join [programPath dst; programName dst]) perm0700
                  _ HP). rewrite Hmk in Kmk. cbn [snd] in Kmk.
    specialize (Kop (getPath src) _ Kmk). rewrite Hop in Kop. cbn [snd] in Kop.
    specialize (Kcr (getPath dst) _ Kop). rewrite Hcr in Kcr. cbn [snd] in Kcr.
    specialize (Kcp toFile fromFile _ Kcr). rewrite Hcp in Kcp. cbn [snd] in Kcp.
    now apply Kcl, Kcl.
Qed.

Lemma copyConf_full (c : Config) (root program file : string) s :
  exists err s',
    copyConf c root program file s
    = Returned (Some (copiedHandle root program file), err) s'
    /\ grewBy (copyCall (copiedHandle root program file) c) s s'
    /\ (forall P : World -> Prop,
          copyKeeps P -> P (world s) -> P (world s')).
Proof.
  destruct (copyConf_run c root program file s) as (err & s' & Hrun & Hread).
  destruct (read_full (copiedHandle root program file) c s)
    as (err' & s'' & Hread' & Hgrew & Hkeeps).
  rewrite Hread in Hread'. injection Hread' as <- <-.
  exists err, s'. auto.
Qed.

Lemma copyCall_user root program file (c : Call File Watcher) :
  copyCall (copiedHandle root program file) (foundHandle "/etc" program file) c ->
  lookupCall root program file c.
Proof. destruct c; cbn; auto; contradiction. Qed.

Lemma copyCall_tmp root program file (c : Call File Watcher) :
  copyCall (copiedHandle "/tmp" program file)
    (foundHandle "/etc" program file) c ->
  lookupCall root program file c.
Proof. destruct c; cbn; auto; contradiction. Qed.

Lemma lookupCall_Stat_system root program file :
  lookupCall (File := File) (Watcher := Watcher) root program file
    (CallStat (path.Join ["/etc"; program; file])).
Proof. cbn. auto. Qed.

Lemma lookupCall_Stat_user root program file :
  lookupCall (File := File) (Watcher := Watcher) root program file
    (CallStat (path.Join [root; program; file])).
Proof. cbn. auto. Qed.

(** [Get_system] in full. *)
Lemma Get_system_full root program file s :
  exists r s',
    Get_system program file s = Returned r s'
    /\ grewBy (lookupCall root program file) s s'
    /\ (forall P : World -> Prop,
          copyKeeps P -> P (world s) -> P (world s'))
    /\ (os_Stat (path.Join ["/etc"; program; file]) (world s) = None ->
        exists h, r = (Some h, None)).
Proof.
  destruct (os_Stat (path.Join ["/etc"; program; file]) (world s))
    as [e|] eqn:Hsys.
  - rewrite Get_system_missing by congruence.
    do 2 eexists. split; [reflexivity|]. split; [|split].
    + apply grewBy_logged, lookupCall_Stat_system.
    + intros P _ HP. exact HP.
    + discriminate.
  - unfold Get_system, getSysConfig.
    erewrite bind_returned by (apply findConfig_found; exact Hsys).
    cbn [fst snd deref]. unfold makeTmp.
    cbn [foundHandle programName confName].
    destruct (copyConf_full (foundHandle "/etc" program file)
                "/tmp" program file
                (logged s (CallStat (path.Join ["/etc"; program; file]))))
      as (err & s' & Hcopy & Hgrew & Hkeeps).
    unfold bind at 1. unfold ret at 1.
    erewrite bind_returned by exact Hcopy.
    exists (Some (match err with
                  | None => copiedHandle "/tmp" program file
                  | Some _ => foundHandle "/etc" program file
                  end), None), s'.
    split; [now destruct err|]. split; [|split].
    + eapply grewBy_trans;
        [apply grewBy_logged, lookupCall_Stat_system|].
      eapply grewBy_weaken; [apply copyCall_tmp | exact Hgrew].
    + intros P HK HP. now apply Hkeeps.
    + intros _. eauto.
Qed.

(** [copySysConfig] in full. *)
Lemma copySysConfig_full root program file s :
  exists h err s',
    copySysConfig root program file s = Returned (h, err) s'
    /\ grewBy (lookupCall root program file) s s'
    /\ (forall P : World -> Prop,
          copyKeeps P -> P (world s) -> P (world s'))
    /\ (err = None -> exists c, h = Some c).
Proof.
  destruct (os_Stat (path.Join ["/etc"; program; file]) (world s))
    as [e|] eqn:Hsys.
  - destruct (copySysConfig_missing root program file s) as [e' He];
      [congruence|].
    do 3 eexists. split; [exact He|]. split; [|split].
    + apply grewBy_logged, lookupCall_Stat_system.
    + intros P _ HP. exact HP.
    + discriminate.
  - rewrite (copySysConfig_found _ _ _ _ Hsys).
    destruct (copyConf_full (foundHandle "/etc" program file)
                root program file
                (logged s (CallStat (path.Join ["/etc"; program; file]))))
      as (err & s' & Hcopy & Hgrew & Hkeeps).
    do 3 eexists. split; [exact Hcopy|]. split; [|split].
    + eapply grewBy_trans;
        [apply grewBy_logged, lookupCall_Stat_system|].
      eapply grewBy_weaken; [apply copyCall_user | exact Hgrew].
    + intros P HK HP. now apply Hkeeps.
    + intros _. eauto.
Qed.

(** [Get] in full. *)
Lemma Get_full program file s :
  exists r s',
    Get program file s = Returned r s'
    /\ grewBy (lookupCall (userRoot (world s)) program file) s s'
    /\ (forall P : World -> Prop,
          copyKeeps P -> P (world s) -> P (world s'))
    /\ (copyKeeps
          (fun w => os_Stat (path.Join ["/etc"; program; file]) w = None) ->
        os_Stat (path.Join ["/etc"; program; file]) (world s) = None ->
        exists h, r = (Some h, None)).
Proof.
  set (root := userRoot (world s)).
  destruct (String.eqb_spec root ".config") as [Hroot|Hroot].
  - rewrite (Get_unresolved _ _ _ Hroot).
    destruct (Get_system_full root program file (askedEnv s))
      as (r & s' & Hrun & Hgrew & Hkeeps & Hok).
    exists r, s'. split; [exact Hrun|]. split; [|split].
    + eapply grewBy_trans; [apply grewBy_askedEnv | exact Hgrew].
    + intros P HK HP. apply Hkeeps; [exact HK | now rewrite world_askedEnv].
    + intros _ Hsys. apply Hok. now rewrite world_askedEnv.
  - set (s1 := logged (askedEnv s) (CallStat (path.Join [root; program; file]))).
    assert (Hw1 : world s1 = world s)
      by (unfold s1; now rewrite world_logged, world_askedEnv).
    assert (Hg1 : grewBy (lookupCall root program file) s s1).
    { eapply grewBy_trans; [apply grewBy_askedEnv|].
      apply grewBy_logged, lookupCall_Stat_user. }
    destruct (os_Stat (path.Join [root; program; file]) (world s))
      as [e|] eqn:Hstat.
    + destruct (copySysConfig_full root program file s1)
        as (h & err & s2 & Hcopy & Hgrew & Hkeeps & Hh).
      assert (Hmissing : os_Stat (path.Join [root; program; file]) (world s)
                         <> None) by congruence.
      rewrite (Get_user_missing program file s h err s2 Hroot Hmissing Hcopy).
      destruct err as [e'|].
      * destruct (Get_system_full root program file s2)
          as (r & s' & Hrun & Hgrew' & Hkeeps' & Hok).
        exists r, s'. split; [exact Hrun|]. split; [|split].
        -- eapply grewBy_trans; [exact Hg1|].
           eapply grewBy_trans; [exact Hgrew | exact Hgrew'].
        -- intros P HK HP. apply Hkeeps'; [exact HK|].
           apply Hkeeps; [exact HK | now rewrite Hw1].
        -- intros HK Hsys. apply Hok.
           apply (Hkeeps _ HK). now rewrite Hw1.
      * destruct (Hh eq_refl) as [c ->].
        exists (Some c, None), s2. split; [reflexivity|]. split; [|split].
        -- eapply grewBy_trans; [exact Hg1 | exact Hgrew].
        -- intros P HK HP. apply Hkeeps; [exact HK | now rewrite Hw1].
        -- intros _ _. eauto.
    + rewrite (Get_user_config _ _ _ Hroot Hstat).
      do 2 eexists. split; [reflexivity|]. split; [|split].
      * exact Hg1.
      * intros P _ HP. fold root. fold s1. now rewrite Hw1.
      * intros _ _. eauto.
Qed.

(** X8: whatever [Get] finds, these are the only calls it makes: it asks
    the environment, stats the user's file and the system's, makes the
    directory [<root>/<program>] or [/tmp/<program>] with [0700] and no
    other, opens the system's file and no other, and creates the user's
    file or the one under [/tmp] and no other.  It reads no file itself and
    sets no watch. *)
Theorem Get_calls (program file : string) s :
  exists r s',
    Get program file s = Returned r s'
    /\ grewBy (lookupCall (userRoot (world s)) program file) s s'.
Proof.
  destruct (Get_full program file s) as (r & s' & Hrun & Hgrew & _).
  eauto.
Qed.

(** X9: on an operating system where making directories, opening, creating
    and copying files never makes the system's file unstattable, [Get]
    returns a handle and no error whenever the system's file can be statted
    when it starts, whatever becomes of the copies it attempts. *)
Theorem Get_succeeds_with_system_config (program file : string) s :
  copyKeeps (fun w => os_Stat (path.Join ["/etc"; program; file]) w = None) ->
  os_Stat (path.Join ["/etc"; program; file]) (world s) = None ->
  exists h s', Get program file s = Returned (Some h, None) s'.
Proof.
  intros HK Hsys.
  destruct (Get_full program file s) as (r & s' & Hrun & _ & _ & Hok).
  destruct (Hok HK Hsys) as [h ->]. eauto.
Qed.
End GetCalls.

(** ** More of the simulated file system *)
Section SimulatedKeeps.
Import SimFS.

Lemma isDir_foldr_insert (perm : Z) (missing : list string)
    (m : gmap string Z) (p : string) :
  is_Some (m !! p) ->
  is_Some (foldr (fun d m => <[d := perm]> m) m missing !! p).
Proof.
  intros H. induction missing as [|d missing IH]; [exact H|].
  cbn. rewrite lookup_insert_is_Some. destruct (decide (d = p)); auto.
Qed.

Lemma grows_refl fs : grows fs fs.
Proof. repeat split; auto. Qed.

Lemma grows_stat fs fs' p :
  grows fs fs' -> stat p fs = None -> stat p fs' = None.
Proof.
  intros (Hh & Hf & Hd). unfold stat, isHidden, isFile, isDir. rewrite Hh.
  destruct (existsb _ (hidden fs)); [discriminate|].
  specialize (Hf p). specialize (Hd p).
  destruct (files fs !! p) as [x|] eqn:Ef.
  - destruct (Hf (ltac:(eauto))) as [y ->]. reflexivity.
  - destruct (dirs fs !! p) as [x|] eqn:Ed; [|discriminate].
    destruct (Hd (ltac:(eauto))) as [y ->].
    now destruct (files fs' !! p).
Qed.

Lemma mkdirAll_grows name perm fs : grows fs (snd (mkdirAll name perm fs)).
Proof.
  unfold mkdirAll.
  repeat match goal with
         | |- context [if ?b then _ else _] => destruct b
         end; cbn [snd]; try apply grows_refl.
  repeat split; auto. cbn. intros p. apply isDir_foldr_insert.
Qed.

Lemma open_grows name fs : grows fs (snd (open name fs)).
Proof.
  unfold open.
  repeat match goal with
         | |- context [if ?b then _ else _] => destruct b
         end; apply grows_refl.
Qed.

Lemma create_grows name fs : grows fs (snd (create name fs)).
Proof.
  unfold create.
  repeat match goal with
         | |- context [if ?b then _ else _] => destruct b
         end; cbn [snd]; try apply grows_refl.
  repeat split; auto. cbn. intros p Hp.
  rewrite lookup_insert_is_Some. destruct (decide (name = p)); auto.
Qed.

Lemma copy_grows dst src fs : grows fs (snd (copy dst src fs)).
Proof.
  unfold copy.
  destruct (files fs !! src), (files fs !! dst); cbn [snd];
    try apply grows_refl.
  repeat split; auto. cbn. intros p Hp.
  rewrite lookup_insert_is_Some. destruct (decide (dst = p)); auto.
Qed.

(** On the simulated file system the calls of a copy keep every path
    that can be statted so. *)
Lemma sim_copyKeeps (p : string) :
  copyKeeps (os := sim) (fun fs => stat p fs = None).
Proof.
  repeat split; cbn; intros.
  - eapply grows_stat; [apply mkdirAll_grows | assumption].
  - eapply grows_stat; [apply open_grows | assumption].
  - eapply grows_stat; [apply create_grows | assumption].
  - eapply grows_stat; [apply copy_grows | assumption].
  - assumption.
Qed.
End SimulatedKeeps.

(** On the simulated file system [Get] of [fonts] returns a handle wherever
    the system configuration is. *)
Lemma Get_succeeds_with_system_config_on_sim (fs : SimFS.FS) :
  SimFS.stat "/etc/fonts/fonts.conf" fs = None ->
  exists h s',
    Get "fonts" "fonts.conf" (SimFS.start fs) = Returned (Some h, None) s'.
Proof.
  intros Hsys.
  destruct (Get_full (os := SimFS.sim) "fonts" "fonts.conf" (SimFS.start fs))
    as (r & s' & Hrun & _ & _ & Hok).
  destruct (Hok (sim_copyKeeps _) Hsys) as [h ->]. eauto.
Qed.

(** A user in a read-only home, on a machine with the system configuration
    of [fonts]: the copy into the home fails and [Get] still returns a
    handle. *)
Lemma Get_succeeds_with_system_config_witness :
  exists h s',
    Get "fonts" "fonts.conf" (SimFS.start SimFS.readonlyHome)
    = Returned (Some h, None) s'.
Proof.
  apply (Get_succeeds_with_system_config (os := SimFS.sim) "fonts"
           "fonts.conf" (SimFS.start SimFS.readonlyHome)).
  - apply sim_copyKeeps.
  - vm_compute. reflexivity.
Defined.

(** ** [Write], [Read] and [copyConf] on the simulated file system *)
Section SimulatedWrite.
Import SimFS.
Implicit Types s : State FS string unit.

Lemma create_visible name fs f fs' :
  create name fs = (inl f, fs') -> isHidden fs' name = false.
Proof.
  unfold create. destruct (isHidden fs name) eqn:Hh; [discriminate|].
  repeat match goal with
         | |- context [if ?b then _ else _] => destruct b
         end; intros H; inversion H; subst; exact Hh.
Qed.

(** X10: on the simulated file system a [Write] that reports no error
    reports the number of bytes it was given, and a [Read] through the same
    handle right after it returns exactly these bytes, whatever the file
    held before. *)
Theorem Write_then_Read (c : Config) (newConf : bytes) s (n : Z) s' :
  Write c newConf s = Returned (n, None) s' ->
  n = Z.of_nat (length newConf)
  /\ returned (Read c s') = Some (inl newConf).
Proof.
  unfold Write, Create. cbn [world].
  destruct (create (getPath c) (world s)) as [[f|e] fs1] eqn:Hcr;
    rewrite (bind_returned _ _ _ _ _
               (call_run _ _ _ _ _ Hcr));
    [|discriminate].
  pose proof (create_visible _ _ _ _ Hcr) as Hvis.
  apply create_inl in Hcr as [-> Hfiles].
  unfold FileWrite. cbn [world calls file_Write SimWrite.sim].
  unfold SimWrite.write. rewrite Hfiles, lookup_insert_eq. cbn [app].
  intros H. injection H as <- <-. split; [reflexivity|].
  unfold Read, ReadFile, call. cbn [world ioutil_ReadFile sim].
  unfold readFile. cbn [files setFiles hidden isHidden] in *.
  unfold isHidden in Hvis. cbn. rewrite Hvis.
  now rewrite lookup_insert_eq.
Qed.

(** X11: on the simulated file system, copying a configuration onto its
    own path without an error leaves the file empty: [read] creates, and
    so truncates, the destination before [io.Copy] reads the source. *)
Theorem copyConf_onto_itself_truncates (c : Config) s h s' :
  copyConf (os := sim) c (programPath c) (programName c) (confName c) s
  = Returned (h, None) s' ->
  files (world s') !! getPath c = Some [].
Proof.
  intros Hrun.
  destruct (copyConf_run (os := sim) c (programPath c) (programName c)
              (confName c) s) as (err & s'' & Hrun' & Hread).
  rewrite Hrun in Hrun'. injection Hrun' as _ <- <-.
  destruct (read_returns (os := sim)
              (copiedHandle (programPath c) (programName c) (confName c)) c s)
    as (err & s'' & Hread' & _ & Hall).
  rewrite Hread in Hread'. injection Hread' as <- <-.
  destruct (Hall eq_refl)
    as (w1 & w2 & w3 & w4 & fromFile & toFile & n
        & Hmk & Hop & Hcr & Hcp & Hw & _).
  change (getPath (copiedHandle (programPath c) (programName c) (confName c)))
    with (getPath c) in Hcr.
  cbn in Hmk, Hop, Hcr, Hcp, Hw.
  apply open_inl in Hop as [-> ->].
  apply create_inl in Hcr as [-> Hcr].
  unfold copy in Hcp. rewrite Hcr, lookup_insert_eq in Hcp.
  injection Hcp as _ Hw4. rewrite Hw, <- Hw4. cbn.
  now rewrite lookup_insert_eq.
Qed.
End SimulatedWrite.

(** Writing to the user's configuration of [fonts] and reading it back. *)
Lemma Write_then_Read_witness :
  let c := mkConfig "/home/u/.config" "fonts" "fonts.conf" true in
  let o := Write (os := SimFS.sim) c (String.list_byte_of_string "<new/>")
             (SimFS.start SimFS.withUserConfig) in
  returned o = Some (6, None)
  /\ returned (Read c (final o))
     = Some (inl (String.list_byte_of_string "<new/>")).
Proof.
  intros c o.
  assert (Hret : returned o = Some (6, None)) by (vm_compute; reflexivity).
  split; [exact Hret|].
  destruct o as [[n err] s'|s'] eqn:Ho; [|discriminate Hret].
  injection Hret as -> ->.
  apply (Write_then_Read c (String.list_byte_of_string "<new/>")
           (SimFS.start SimFS.withUserConfig) 6 s' Ho).
Defined.

(** Copying the user's configuration of [fonts] onto itself. *)
Lemma copyConf_onto_itself_truncates_witness :
  let c := mkConfig "/home/u/.config" "fonts" "fonts.conf" true in
  let o := copyConf (os := SimFS.sim) c "/home/u/.config" "fonts"
             "fonts.conf" (SimFS.start SimFS.withUserConfig) in
  SimFS.files SimFS.withUserConfig !! getPath c = Some SimFS.userConf
  /\ returned o = Some (Some (mkConfig "/home/u/.config" "fonts"
                               "fonts.conf" false), None)
  /\ SimFS.files (world (final o)) !! getPath c = Some [].
Proof.
  intros c o.
  split; [vm_compute; reflexivity|].
  assert (Hret : returned o
                 = Some (Some (mkConfig "/home/u/.config" "fonts"
                                 "fonts.conf" false), None))
    by (vm_compute; reflexivity).
  split; [exact Hret|].
  destruct o as [[h err] s'|s'] eqn:Ho; [|discriminate Hret].
  injection Hret as -> ->.
  apply (copyConf_onto_itself_truncates c
           (SimFS.start SimFS.withUserConfig) _ s' Ho).
Defined.

(** ** More of the watcher *)
Section MoreWatching.
Context {World File Watcher : Type} {os : OS World File Watcher}.
Implicit Types s : State World File Watcher.

(** X12: [Listen] makes the watcher and sets the watch on the full path
    of the handle, and calls nothing else.  When [inotify.NewWatcher] fails
    it returns no watcher and that error, after that one call; when
    [watcher.Watch] fails it returns no watcher and that error; when both
    succeed it returns the watcher made and no error.  It does not read the
    file: what the file holds when [Listen] is called is never sent. *)
Theorem Listen_sets_watch (c : Config) s :
  exists r s',
    Listen c s = Returned r s'
    /\ (forall e w1,
          inotify_NewWatcher (world s) = (inr e, w1) ->
          r = (None, Some e)
          /\ world s' = w1
          /\ calls s' = calls s ++ [CallNewWatcher])
    /\ (forall w w1 e w2,
          inotify_NewWatcher (world s) = (inl w, w1) ->
          watcher_Watch w (getPath c) w1 = (Some e, w2) ->
          r = (None, Some e)
          /\ world s' = w2
          /\ calls s' = calls s ++ [CallNewWatcher; CallWatch w (getPath c)])
    /\ (forall w w1 w2,
          inotify_NewWatcher (world s) = (inl w, w1) ->
          watcher_Watch w (getPath c) w1 = (None, w2) ->
          r = (Some w, None)
          /\ world s' = w2
          /\ calls s' = calls s ++ [CallNewWatcher; CallWatch w (getPath c)]).
Proof.
  unfold Listen, NewWatcher, Watch.
  destruct (inotify_NewWatcher (world s)) as [[w|e] w1] eqn:Hnew;
    rewrite (bind_returned _ _ _ _ _ (call_run _ _ _ _ _ Hnew)).
  - destruct (watcher_Watch w (getPath c) w1) as [[e|] w2] eqn:Hwatch;
      rewrite (bind_returned _ _ _ _ _
                 (call_run _ _ (mkState w1 _) _ _ Hwatch));
      do 2 eexists; (split; [reflexivity|]); cbn [calls world];
      rewrite <- app_assoc; cbn [app];
      (split; [intros ? ? [=] |]);
      split; intros w' w1' ; intros;
      repeat match goal with
             | H : (inl _, _) = (inl _, _) |- _ => injection H as <- <-
             | H : watcher_Watch _ _ _ = _ |- _ =>
                 rewrite Hwatch in H; try discriminate H;
                 injection H as <- || injection H as <- <-
             end; auto.
  - do 2 eexists. split; [reflexivity|]. cbn [calls world].
    split; [intros ? ? [= <- <-]; auto|].
    split; intros; discriminate.
Qed.

(** X13: the loop takes what it receives in the order it receives it: its
    run on [before ++ after] is its run on [before] followed, in the state
    that leaves, by its run on [after]; the values sent are those of the
    first followed by those of the second, one for every qualifying event
    and every error of the watcher, and none is dropped or merged. *)
Theorem listenLoop_in_order (c : Config) (before after : list Received) s :
  exists sent1 s1 sent2 s2,
    listenLoop c before s = Returned sent1 s1
    /\ listenLoop c after s1 = Returned sent2 s2
    /\ listenLoop c (before ++ after) s = Returned (sent1 ++ sent2) s2
    /\ length sent1 = publications before
    /\ length sent2 = publications after.
Proof.
  revert s. induction before as [|r before IH]; intros s.
  - destruct (listenLoop_returns c after s) as (sent2 & s2 & Hrun & Hlen).
    exists [], s, sent2, s2. repeat split; assumption.
  - destruct (listenRound_returns c r s) as (sent & s0 & Hround & Hlen).
    destruct (IH s0) as (sent1 & s1 & sent2 & s2 & H1 & H2 & H12 & L1 & L2).
    exists (sent ++ sent1), s1, sent2, s2.
    cbn [listenLoop app].
    repeat (erewrite bind_returned by eassumption).
    rewrite <- app_assoc. repeat split; try assumption.
    rewrite length_app, Hlen, L1. unfold publications. cbn [List.filter].
    now destruct r as [mask|]; [destruct (qualifies mask)|].
Qed.
End MoreWatching.

(** On a machine with the system configuration of [fonts], [Listen] on its
    handle returns the watcher. *)
Lemma Listen_sets_watch_witness :
  returned (Listen (os := SimFS.sim) (foundHandle "/etc" "fonts" "fonts.conf")
              (SimFS.start SimFS.system))
  = Some (Some tt, None).
Proof.
  destruct (Listen_sets_watch (os := SimFS.sim)
              (foundHandle "/etc" "fonts" "fonts.conf")
              (SimFS.start SimFS.system)) as (r & s' & Hrun & _ & _ & Hok).
  destruct (Hok tt SimFS.system SimFS.system) as (-> & _);
    [vm_compute; reflexivity | vm_compute; reflexivity |].
  now rewrite Hrun.
Defined.

(** ** More of [config.go] *)
Section EarliestRevision.
Context {World File Watcher : Type} {os : OS World File Watcher}.
Implicit Types s : State World File Watcher.
Import config_go_lookup.

Lemma config_go_Exists_run (c : Config) s :
  config_go.Exists c s
  = Returned (match os_Stat (getPath c) (world s) with
              | None => false
              | Some _ => true
              end) (logged s (CallStat (getPath c))).
Proof. reflexivity. Qed.

(** X14: in [config.go], with [XDG_CONFIG_HOME] set, [Get] asks for that
    variable and stats [<XDG_CONFIG_HOME>/<program>/<file>], and that is
    all: it does not look in the home directory or under [/etc] and copies
    nothing.  As [Exists] there returns [err != nil], [Get] returns the
    handle when the file cannot be statted and the error when it can. *)
Theorem config_go_Get_with_XDG (program file : string) s :
  os_Getenv "XDG_CONFIG_HOME" (world s) <> "" ->
  let root := os_Getenv "XDG_CONFIG_HOME" (world s) in
  let name := path.Join [root; program; file] in
  Get program file s
  = Returned
      (match os_Stat name (world s) with
       | Some _ => (Some (mkConfig root program file true), None)
       | None =>
           (None,
            Some (errors_New "System specific ProgramConfig does not exist"))
       end)
      (logged (logged s (CallGetenv "XDG_CONFIG_HOME")) (CallStat name)).
Proof.
  intros Hxdg root name.
  apply String.eqb_neq in Hxdg. fold root in Hxdg.
  unfold Get, Get_in, findConfig, config_go.Exists, bind, Getenv, Stat, look,
    ret, getPath.
  cbn [world calls programPath programName confName]. fold root.
  rewrite Hxdg. cbn [negb]. fold name. cbn [world calls].
  now destruct (os_Stat name (world s)).
Qed.

(** X15: in [config.go], [copyConf] returns a handle or an error, never
    both and never neither (the later revisions return the handle with the
    error).  Its first call is always [os.MkdirAll] of the directory of the
    destination with [os.ModeDir], no permission bits: the error for a
    path that cannot be decomposed is never returned, since [path.Dir] and
    [path.Base] return no empty string.  After that it only opens, creates
    and copies: the files it opens are not closed. *)
Theorem config_go_copyConf_shape (c : Config) (to : string) s :
  exists r s' l,
    copyConf c to s = Returned r s'
    /\ calls s' = calls s ++ CallMkdirAll (path.Dir to) ModeDir :: l
    /\ Forall (fun call => match call with
                           | CallOpen _ | CallCreate _ | CallCopy _ _ => True
                           | _ => False
                           end) l
    /\ ((exists h,
           r = (Some h, None)
           /\ h = mkConfig (path.Dir (path.Dir to)) (path.Base (path.Dir to))
                   (path.Base to)
                   (String.eqb (path.Dir (path.Dir to)) "/tmp"))
        \/ (exists e, r = (None, Some e))).
Proof.
  unfold copyConf, GoSwitch.switch.
  cbn [GoSwitch.findCase GoSwitch.findDefault GoSwitch.guard].
  rewrite (eqb_empty_false _ (Dir_nonempty (path.Dir to))).
  rewrite (eqb_empty_false _ (Base_nonempty (path.Dir to))).
  rewrite (eqb_empty_false _ (Base_nonempty to)).
  unfold MkdirAll, Open, Create, Copy.
  destruct (os_MkdirAll (path.Dir to) ModeDir (world s)) as [[e|] w1] eqn:Hmk;
    rewrite (bind_returned _ _ _ _ _ (call_run _ _ _ _ _ Hmk)).
  { exists (None, Some e). do 2 eexists. split; [reflexivity|].
    cbn [calls]. split; [reflexivity|]. split; [constructor | eauto]. }
  match goal with
  | |- context [os_Open ?name] =>
      destruct (os_Open name w1) as [[fromFile|e] w2] eqn:Hop
  end;
    rewrite (bind_returned _ _ _ _ _ (call_run _ _ (mkState w1 _) _ _ Hop)).
  2:{ exists (None, Some e). do 2 eexists. split; [reflexivity|].
      cbn [calls]. rewrite <- app_assoc.
      split; [reflexivity|]. split; [repeat constructor | eauto]. }
  match goal with
  | |- context [os_Create ?name] =>
      destruct (os_Create name w2) as [[toFile|e] w3] eqn:Hcr
  end;
    rewrite (bind_returned _ _ _ _ _ (call_run _ _ (mkState w2 _) _ _ Hcr)).
  2:{ exists (None, Some e). do 2 eexists. split; [reflexivity|].
      cbn [calls]. rewrite <- !app_assoc.
      split; [reflexivity|]. split; [repeat constructor | eauto]. }
  destruct (io_Copy toFile fromFile w3) as [[n err] w4] eqn:Hcp;
    rewrite (bind_returned _ _ _ _ _ (call_run _ _ (mkState w3 _) _ _ Hcp)).
  cbn [snd].
  destruct err as [e|]; do 3 eexists; (split; [reflexivity|]); cbn [calls];
    rewrite <- !app_assoc; (split; [reflexivity|]);
    (split; [repeat constructor|]).
  - right. eauto.
  - left. eexists. split; [reflexivity|].
    now destruct (String.eqb (path.Dir (path.Dir to)) "/tmp").
Qed.
End EarliestRevision.

(** A machine with [XDG_CONFIG_HOME] set and the user's file in place:
    [Get] of [config.go] returns the error. *)
Lemma config_go_Get_with_XDG_witness :
  returned (config_go_lookup.Get (os := SimFS.sim) "fonts" "fonts.conf"
              (SimFS.start SimFS.withUserConfig))
  = Some (None,
          Some (errors_New "System specific ProgramConfig does not exist")).
Proof.
  rewrite (config_go_Get_with_XDG (os := SimFS.sim) "fonts" "fonts.conf"
             (SimFS.start SimFS.withUserConfig));
    [vm_compute; reflexivity | vm_compute; discriminate].
Defined.

(** ** The handle [Get] returns *)
Section GetValid.
Context {World File Watcher : Type} {os : OS World File Watcher}.
Implicit Types s : State World File Watcher.

(** What can be statted can still be statted after the calls of a copy. *)
Hypothesis keepsStattable :
  forall p, copyKeeps (fun w => os_Stat p w = None).
Hypothesis created : createdCanBeStatted.

Lemma copyConf_valid (c : Config) (root program file : string) s h s' :
  copyConf c root program file s = Returned (Some h, None) s' ->
  os_Stat (getPath h) (world s') = None.
Proof.
  intros Hrun.
  destruct (copyConf_run c root program file s) as (err & s'' & Hrun' & Hread).
  rewrite Hrun in Hrun'. injection Hrun' as -> <- <-.
  destruct (read_returns (copiedHandle root program file) c s)
    as (err & s'' & Hread' & _ & Hall).
  rewrite Hread in Hread'. injection Hread' as <- <-.
  destruct (Hall eq_refl)
    as (w1 & w2 & w3 & w4 & fromFile & toFile & n
        & _ & _ & Hcr & Hcp & Hw & _).
  destruct (keepsStattable (getPath (copiedHandle root program file)))
    as (_ & _ & _ & Kcp & Kcl).
  rewrite Hw. apply Kcl, Kcl.
  specialize (Kcp toFile fromFile w3 (created _ _ _ _ Hcr)).
  now rewrite Hcp in Kcp.
Qed.

Lemma copyConf_keeps (c : Config) (root program file : string) s r s' p :
  copyConf c root program file s = Returned r s' ->
  os_Stat p (world s) = None -> os_Stat p (world s') = None.
Proof.
  intros Hrun Hp.
  destruct (copyConf_full c root program file s)
    as (err & s'' & Hrun' & _ & Hkeeps).
  rewrite Hrun in Hrun'. injection Hrun' as _ <-.
  now apply (Hkeeps _ (keepsStattable p)).
Qed.

Lemma Get_system_valid program file s h s' :
  Get_system program file s = Returned (Some h, None) s' ->
  os_Stat (getPath h) (world s') = None.
Proof.
  intros Hrun.
  destruct (os_Stat (path.Join ["/etc"; program; file]) (world s))
    as [e|] eqn:Hsys.
  - rewrite Get_system_missing in Hrun by congruence. discriminate.
  - destruct (Get_system_run program file s Hsys)
      as (err & s'' & Htmp & Hrun').
    rewrite Hrun in Hrun'. injection Hrun' as -> <-.
    unfold makeTmp in Htmp. cbn [foundHandle programName confName] in Htmp.
    destruct err as [e|].
    + apply (copyConf_keeps _ _ _ _ _ _ _ _ Htmp). exact Hsys.
    + apply (copyConf_valid _ _ _ _ _ _ _ Htmp).
Qed.

(** X16: on an operating system where a file that has been created can be
    statted, and where what can be statted still can after the calls of a
    copy, the handle [Get] returns is the handle of a file that can be
    statted when [Get] returns: the user's file it found or copied, the
    copy under [/tmp], or the system's file. *)
Theorem Get_returns_valid_config (program file : string) s h s' :
  Get program file s = Returned (Some h, None) s' ->
  os_Stat (getPath h) (world s') = None.
Proof.
  intros Hrun.
  destruct (String.eqb_spec (userRoot (world s)) ".config") as [Hroot|Hroot].
  - rewrite (Get_unresolved _ _ _ Hroot) in Hrun.
    now apply Get_system_valid in Hrun.
  - destruct (os_Stat (path.Join [userRoot (world s); program; file])
                (world s)) as [e|] eqn:Hstat.
    + set (s1 := logged (askedEnv s)
                   (CallStat (path.Join [userRoot (world s); program; file]))).
      destruct (copySysConfig_returns (userRoot (world s)) program file s1)
        as (h0 & err & s2 & Hcopy & _).
      assert (Hmissing : os_Stat (path.Join [userRoot (world s); program; file])
                           (world s) <> None) by congruence.
      rewrite (Get_user_missing program file s h0 err s2 Hroot Hmissing Hcopy)
        in Hrun.
      destruct err as [e'|]; [now apply Get_system_valid in Hrun|].
      injection Hrun as -> <-.
      destruct (os_Stat (path.Join ["/etc"; program; file]) (world s1))
        as [e'|] eqn:Hsys.
      * destruct (copySysConfig_missing (userRoot (world s)) program file s1)
          as [e'' He]; [congruence|].
        rewrite He in Hcopy. discriminate.
      * rewrite (copySysConfig_found _ _ _ _ Hsys) in Hcopy.
        apply (copyConf_valid _ _ _ _ _ _ _ Hcopy).
    + rewrite (Get_user_config _ _ _ Hroot Hstat) in Hrun.
      injection Hrun as <- <-.
      rewrite world_logged, world_askedEnv. exact Hstat.
Qed.
End GetValid.

(** ** The simulated file system as such an operating system *)
Section SimulatedCreate.
Import SimFS.

Lemma sim_createdCanBeStatted : createdCanBeStatted (os := sim).
Proof.
  intros name fs f fs' Hcr. cbn in *.
  pose proof (create_visible _ _ _ _ Hcr) as Hvis.
  apply create_inl in Hcr as [_ Hfiles].
  unfold stat, isFile. rewrite Hvis, Hfiles, lookup_insert_eq. reflexivity.
Qed.
End SimulatedCreate.

(** A new user: the handle [Get] returns is that of the copy it made, which
    is there. *)
Lemma Get_returns_valid_config_witness :
  exists h s',
    Get "fonts" "fonts.conf" (SimFS.start SimFS.newUser)
    = Returned (Some h, None) s'
    /\ SimFS.stat (getPath h) (world s') = None.
Proof.
  destruct (Get_succeeds_with_system_config_on_sim SimFS.newUser)
    as (h & s' & Hrun); [vm_compute; reflexivity|].
  exists h, s'. split; [exact Hrun|].
  apply (Get_returns_valid_config (os := SimFS.sim) sim_copyKeeps
           sim_createdCanBeStatted "fonts" "fonts.conf"
           (SimFS.start SimFS.newUser) h s' Hrun).
Defined.
